(** * RoutineFlow: the duration codec and the timer engine

    A shallow embedding of [js/app.js] (the two duration utilities),
    [js/storage.js] (the catalog lookup and the persisted timer state) and
    the timer engine module that [sw.js] carries after the service worker.

    JavaScript numbers are IEEE doubles.  Every number the engine handles is
    an integer (epoch milliseconds, task durations, indices), so numbers are
    modelled as [Z]; where the source computes on text the embedding returns
    [None] outside the range in which integer arithmetic on doubles is exact
    and outside the numeric literals it models. *)

From Stdlib Require Import ZArith List String Ascii Bool Lia.
From Stdlib Require Import DecimalString DecimalPos.
Import ListNotations.
Local Open Scope string_scope.
Local Open Scope Z_scope.

(* ================================================================== *)
(** ** js/app.js : msToTime and timeToMs *)
(* ================================================================== *)

Module App.

(** The result of [Number(text)] on the modelled fragment: [NaN] or an
    integral value. *)
Inductive jsnum : Type :=
| NaN
| Num (z : Z).

(** Integers of magnitude up to 2^53 are doubles, and a sum or product whose
    mathematical value is such an integer is computed exactly. *)
Definition exact (z : Z) : option Z :=
  if Z.abs z <=? 2 ^ 53 then Some z else None.

Definition digit (c : ascii) : option Z :=
  let n := Z.of_N (N_of_ascii c) in
  if (48 <=? n) && (n <=? 57) then Some (n - 48) else None.

Fixpoint digits_acc (acc : Z) (s : string) : option Z :=
  match s with
  | EmptyString => Some acc
  | String c r =>
      match digit c with
      | Some d => digits_acc (10 * acc + d) r
      | None => None
      end
  end.

(** The value of a non-empty run of decimal digits. *)
Definition decimal (s : string) : option Z :=
  match s with
  | EmptyString => None
  | _ => digits_acc 0 s
  end.

(** An ASCII character with which no [StringNumericLiteral] can begin: not
    white space, not a digit, not a sign, not the dot and not the [I] of
    [Infinity]. *)
Definition starts_no_number (c : ascii) : bool :=
  let n := Z.of_N (N_of_ascii c) in
  (n <? 128)
  && negb ((9 <=? n) && (n <=? 13)) && negb (n =? 32)
  && negb ((48 <=? n) && (n <=? 57))
  && negb (n =? 43) && negb (n =? 45) && negb (n =? 46) && negb (n =? 73).

(** [Number(s)] for a string [s].  The empty string is 0; decimal digits,
    with an optional sign, give their value; a string whose first character
    cannot begin a numeric literal is [NaN].  Every other text (fractions,
    exponents, radix prefixes, [Infinity], surrounding white space, values
    above 2^53) is outside the fragment: [None]. *)
Definition Number (s : string) : option jsnum :=
  match s with
  | EmptyString => Some (Num 0)
  | String c r =>
      match decimal s with
      | Some z => option_map Num (exact z)
      | None =>
          if Ascii.eqb c "+" then
            match decimal r with
            | Some z => option_map Num (exact z)
            | None => None
            end
          else if Ascii.eqb c "-" then
            match decimal r with
            | Some z => option_map Num (exact (- z))
            | None => None
            end
          else if starts_no_number c then Some NaN
          else None
      end
  end.

(** [s.split(sep)] for a one-character separator: never empty, the empty
    string splits into one empty part. *)
Fixpoint split (sep : ascii) (s : string) : list string :=
  match s with
  | EmptyString => [EmptyString]
  | String c r =>
      if Ascii.eqb c sep then EmptyString :: split sep r
      else match split sep r with
           | p :: ps => String c p :: ps
           | [] => [String c EmptyString]
           end
  end.

(** [parts[i] || 0] after [.map(Number)]: a missing part is [undefined], and
    [undefined], [NaN] and 0 are all falsy. *)
Definition part_or_0 (parts : list string) (i : nat) : option Z :=
  match nth_error parts i with
  | None => Some 0
  | Some p =>
      match Number p with
      | None => None
      | Some NaN => Some 0
      | Some (Num z) => Some z
      end
  end.

Definition bind {A B : Type} (o : option A) (f : A -> option B) : option B :=
  match o with
  | Some a => f a
  | None => None
  end.

Notation "x <- e ;; k" := (bind e (fun x => k))
  (at level 61, e at next level, right associativity).

(** [timeToMs(timeStr)]: [(h * 3600 + m * 60 + s) * 1000]. *)
Definition timeToMs (timeStr : string) : option Z :=
  let parts := split ":" timeStr in
  h <- part_or_0 parts 0 ;;
  m <- part_or_0 parts 1 ;;
  s <- part_or_0 parts 2 ;;
  h3600 <- exact (h * 3600) ;;
  m60 <- exact (m * 60) ;;
  hm <- exact (h3600 + m60) ;;
  hms <- exact (hm + s) ;;
  exact (hms * 1000).

(** [String(n)] for an integer [n]. *)
Definition String_of (n : Z) : string :=
  NilZero.string_of_int (Z.to_int n).

Fixpoint repeat_char (c : ascii) (n : nat) : string :=
  match n with
  | O => EmptyString
  | S k => String c (repeat_char c k)
  end.

(** [s.padStart(n, c)]: left padding up to length [n], never a truncation. *)
Definition padStart (n : nat) (c : ascii) (s : string) : string :=
  repeat_char c (n - String.length s) ++ s.

(** [Math.round(ms / 1000)]: the nearest integer, halves upwards. *)
Definition round_div_1000 (ms : Z) : Z := (ms + 500) / 1000.

(** [msToTime(ms)].  [Math.floor(a / b)] is [Z.div] (floor) and [a % b] is
    [Z.rem] (the sign of the dividend). *)
Definition msToTime (ms : Z) : option string :=
  _ <- exact ms ;;
  let totalSeconds := round_div_1000 ms in
  let h := padStart 2 "0" (String_of (totalSeconds / 3600)) in
  let m := padStart 2 "0" (String_of (Z.rem totalSeconds 3600 / 60)) in
  let s := padStart 2 "0" (String_of (Z.rem totalSeconds 60)) in
  Some (h ++ ":" ++ m ++ ":" ++ s).

(** [msToTime(timeToMs(text))]. *)
Definition msToTime_of_timeToMs (text : string) : option string :=
  ms <- timeToMs text ;; msToTime ms.

(** The spec's words for the round trip: a valid text is three runs of
    decimal digits joined by colons, and its normal form prints the same
    number of seconds as zero-padded hours, minutes and seconds. *)
Definition hms_text (hh mm ss : string) : string :=
  hh ++ ":" ++ mm ++ ":" ++ ss.

Definition total_seconds (h m s : Z) : Z := 3600 * h + 60 * m + s.

Definition pad2 (n : Z) : string :=
  let d := String_of n in
  if (String.length d <? 2)%nat then "0" ++ d else d.

Definition normalize_hms (total : Z) : string :=
  pad2 (total / 3600) ++ ":" ++ pad2 ((total mod 3600) / 60)
  ++ ":" ++ pad2 (total mod 60).

(** Fields joined by colons, and what a field contributes per the spec: a
    missing or non-numeric field counts 0, a numeric one its value. *)
Fixpoint join (fields : list string) : string :=
  match fields with
  | [] => EmptyString
  | [p] => p
  | p :: ps => p ++ ":" ++ join ps
  end.

Fixpoint colon_free (s : string) : bool :=
  match s with
  | EmptyString => true
  | String c r => negb (Ascii.eqb c ":") && colon_free r
  end.

Inductive field_reads (fields : list string) (i : nat) : Z -> Prop :=
| field_missing :
    nth_error fields i = None -> field_reads fields i 0
| field_non_numeric p :
    nth_error fields i = Some p -> Number p = Some NaN ->
    field_reads fields i 0
| field_numeric p z :
    nth_error fields i = Some p -> Number p = Some (Num z) ->
    field_reads fields i z.

End App.

(* ================================================================== *)
(** ** js/storage.js : the catalog and the persisted timer state *)
(* ================================================================== *)

Module Task.
Record t : Type := mk
  { name : string; duration : string; notify : string; icon : string }.
End Task.

Module Group.
Record t : Type := mk
  { id : string; name : string; color : option string; tasks : list Task.t }.
End Group.

Module Storage.

(** The object the engine hands to [saveTimerState]. *)
Record TimerState : Type := mkTimerState
  { groupId : string;
    taskIndex : Z;
    paused : bool;
    remaining : Z;
    taskDuration : Z;
    lastTick : Z }.

(** [groups.find(g => g.id === groupId)]: the first match, or [undefined]
    ([None]). *)
Definition getGroupById (groups : list Group.t) (groupId : string)
  : option Group.t :=
  find (fun g => String.eqb (Group.id g) groupId) groups.

End Storage.

(* ================================================================== *)
(** ** The timer engine *)
(* ================================================================== *)

Module TimerEngine.
Import Storage.

(** What the variable [activeGroup] can hold: its initial [null], the
    [undefined] of a failed lookup, or a group. *)
Inductive GroupRef : Type :=
| Null
| Undefined
| Obj (g : Group.t).

(** [!activeGroup] *)
Definition falsy (r : GroupRef) : bool :=
  match r with
  | Obj _ => false
  | _ => true
  end.

(** [activeGroup !== null] *)
Definition not_null (r : GroupRef) : bool :=
  match r with
  | Null => false
  | _ => true
  end.

Definition of_lookup (o : option Group.t) : GroupRef :=
  match o with
  | Some g => Obj g
  | None => Undefined
  end.

(** Calls that leave the engine, in the order they are made: the host's
    timers, the persistence module, the wake-lock helpers, the display and
    notification hooks of [app.js], and the console.  They are best-effort
    collaborators and are taken to return; what can throw inside the engine
    is a property read on [null] or [undefined]. *)
Inductive Event : Type :=
| console_error (msg : string)
| requestWakeLock_call
| releaseWakeLock_call
| setInterval_call (id : nat)
| clearInterval_call (handle : option nat)
| saveTimerState_call (st : TimerState)
| clearTimerState_call
| updateTimerDisplay (task : Task.t) (groupName : string) (taskNumber : Z)
| updateTimerTime (remainingMs durationMs : Z)
| sendTaskNotification (taskName : string) (type : string)
| handleRoutineComplete (finished : bool).

(** The module variables of the engine and of [storage.js], the stored
    timer state, the host's table of live intervals (every one of them runs
    [timerTick] every 100 ms) and the log of outward calls. *)
Record World : Type := mkWorld
  { groups : list Group.t;
    timerStateItem : option TimerState;
    activeGroup : GroupRef;
    currentTaskIndex : Z;
    timerInterval : option nat;
    isPaused : bool;
    startTime : Z;
    taskDurationMs : Z;
    remainingTimeMs : Z;
    intervals : list nat;
    nextInterval : nat;
    trace : list Event }.

(** The module as loaded, over a catalog and a stored timer state. *)
Definition boot (gs : list Group.t) (item : option TimerState) : World :=
  {| groups := gs; timerStateItem := item;
     activeGroup := Null; currentTaskIndex := 0; timerInterval := None;
     isPaused := false; startTime := 0; taskDurationMs := 0;
     remainingTimeMs := 0;
     intervals := []; nextInterval := 1; trace := [] |}.

Definition set_timerStateItem (v : option TimerState) (w : World) : World :=
  mkWorld (groups w) v (activeGroup w) (currentTaskIndex w) (timerInterval w)
    (isPaused w) (startTime w) (taskDurationMs w) (remainingTimeMs w)
    (intervals w) (nextInterval w) (trace w).

Definition set_activeGroup (v : GroupRef) (w : World) : World :=
  mkWorld (groups w) (timerStateItem w) v (currentTaskIndex w)
    (timerInterval w) (isPaused w) (startTime w) (taskDurationMs w)
    (remainingTimeMs w) (intervals w) (nextInterval w) (trace w).

Definition set_currentTaskIndex (v : Z) (w : World) : World :=
  mkWorld (groups w) (timerStateItem w) (activeGroup w) v (timerInterval w)
    (isPaused w) (startTime w) (taskDurationMs w) (remainingTimeMs w)
    (intervals w) (nextInterval w) (trace w).

Definition set_timerInterval (v : option nat) (w : World) : World :=
  mkWorld (groups w) (timerStateItem w) (activeGroup w) (currentTaskIndex w)
    v (isPaused w) (startTime w) (taskDurationMs w) (remainingTimeMs w)
    (intervals w) (nextInterval w) (trace w).

Definition set_isPaused (v : bool) (w : World) : World :=
  mkWorld (groups w) (timerStateItem w) (activeGroup w) (currentTaskIndex w)
    (timerInterval w) v (startTime w) (taskDurationMs w) (remainingTimeMs w)
    (intervals w) (nextInterval w) (trace w).

Definition set_startTime (v : Z) (w : World) : World :=
  mkWorld (groups w) (timerStateItem w) (activeGroup w) (currentTaskIndex w)
    (timerInterval w) (isPaused w) v (taskDurationMs w) (remainingTimeMs w)
    (intervals w) (nextInterval w) (trace w).

Definition set_taskDurationMs (v : Z) (w : World) : World :=
  mkWorld (groups w) (timerStateItem w) (activeGroup w) (currentTaskIndex w)
    (timerInterval w) (isPaused w) (startTime w) v (remainingTimeMs w)
    (intervals w) (nextInterval w) (trace w).

Definition set_remainingTimeMs (v : Z) (w : World) : World :=
  mkWorld (groups w) (timerStateItem w) (activeGroup w) (currentTaskIndex w)
    (timerInterval w) (isPaused w) (startTime w) (taskDurationMs w) v
    (intervals w) (nextInterval w) (trace w).

Definition set_intervals (v : list nat) (n : nat) (w : World) : World :=
  mkWorld (groups w) (timerStateItem w) (activeGroup w) (currentTaskIndex w)
    (timerInterval w) (isPaused w) (startTime w) (taskDurationMs w)
    (remainingTimeMs w) v n (trace w).

Definition log (e : Event) (w : World) : World :=
  mkWorld (groups w) (timerStateItem w) (activeGroup w) (currentTaskIndex w)
    (timerInterval w) (isPaused w) (startTime w) (taskDurationMs w)
    (remainingTimeMs w) (intervals w) (nextInterval w) (trace w ++ [e]).

(** A call either returns or throws; the variables keep what was assigned
    before the throw. *)
Inductive Outcome (A : Type) : Type :=
| Returned (a : A) (w : World)
| Threw (w : World).
Arguments Returned {A} a w.
Arguments Threw {A} w.

Definition world_of {A : Type} (o : Outcome A) : World :=
  match o with
  | Returned _ w => w
  | Threw w => w
  end.

Definition threw {A : Type} (o : Outcome A) : bool :=
  match o with
  | Returned _ _ => false
  | Threw _ => true
  end.

Definition M (A : Type) : Type := World -> Outcome A.

Definition ret {A : Type} (a : A) : M A := fun w => Returned a w.

Definition bind {A B : Type} (m : M A) (k : A -> M B) : M B :=
  fun w =>
    match m w with
    | Returned a w' => k a w'
    | Threw w' => Threw w'
    end.

Definition get : M World := fun w => Returned w w.

Definition modify (f : World -> World) : M unit := fun w => Returned tt (f w).

(** A [TypeError]: a property read on [null] or [undefined]. *)
Definition throw {A : Type} : M A := fun w => Threw w.

Notation "x <- m ;; k" := (bind m (fun x => k))
  (at level 61, m at next level, right associativity).
Notation "m ;; k" := (bind m (fun _ => k))
  (at level 61, right associativity).

Definition call (e : Event) : M unit := modify (log e).

(** [clearInterval(handle)]: the interval with that id, if any, is removed;
    [null] and stale ids remove nothing. *)
Definition cancel (handle : option nat) (live : list nat) : list nat :=
  match handle with
  | Some i => List.remove Nat.eq_dec i live
  | None => live
  end.

Definition clearInterval (handle : option nat) : M unit :=
  call (clearInterval_call handle) ;;
  modify (fun w =>
    set_intervals (cancel handle (intervals w)) (nextInterval w) w).

(** [setInterval(timerTick, 100)]: a fresh id, now live. *)
Definition setInterval : M nat :=
  w <- get ;;
  let i := nextInterval w in
  modify (set_intervals (intervals w ++ [i]) (S i)) ;;
  call (setInterval_call i) ;;
  ret i.

Definition saveTimerState (st : TimerState) : M unit :=
  modify (set_timerStateItem (Some st)) ;; call (saveTimerState_call st).

Definition clearTimerState : M unit :=
  modify (set_timerStateItem None) ;; call clearTimerState_call.

(** [tasks[i]] for an integer [i]: [undefined] out of range. *)
Definition task_at (ts : list Task.t) (i : Z) : option Task.t :=
  if i <? 0 then None else nth_error ts (Z.to_nat i).

Definition notifies (phase : string) (t : Task.t) : bool :=
  String.eqb (Task.notify t) phase || String.eqb (Task.notify t) "both".

Section Engine.

(** The engine imports [timeToMs] from [app.js]; it is used here at its
    integral values. *)
Variable timeToMs : string -> Z.

Definition stopTimer (finished : bool) : M unit :=
  w <- get ;;
  clearInterval (timerInterval w) ;;
  call releaseWakeLock_call ;;
  clearTimerState ;;
  let wasActive := not_null (activeGroup w) in
  modify (set_activeGroup Null) ;;
  modify (set_currentTaskIndex 0) ;;
  modify (set_isPaused false) ;;
  if wasActive then call (handleRoutineComplete finished) else ret tt.

(** [now] is the value of the call's one [Date.now()]. *)
Definition processTask (now : Z) : M unit :=
  w <- get ;;
  match activeGroup w with
  | Obj g =>
      if currentTaskIndex w >=? Z.of_nat (List.length (Group.tasks g))
      then stopTimer true
      else
        match task_at (Group.tasks g) (currentTaskIndex w) with
        | None => throw
        | Some currentTask =>
            modify (set_taskDurationMs (timeToMs (Task.duration currentTask))) ;;
            modify (fun w => set_remainingTimeMs (taskDurationMs w) w) ;;
            modify (set_startTime now) ;;
            modify (set_isPaused false) ;;
            call (updateTimerDisplay currentTask (Group.name g)
                    (currentTaskIndex w + 1)) ;;
            (if notifies "start" currentTask
             then call (sendTaskNotification (Task.name currentTask) "start")
             else ret tt) ;;
            clearInterval (timerInterval w) ;;
            i <- setInterval ;;
            modify (set_timerInterval (Some i))
        end
  | _ => stopTimer true
  end.

Definition startTimer (groupId : string) (now : Z) : M unit :=
  w <- get ;;
  let found := of_lookup (getGroupById (groups w) groupId) in
  modify (set_activeGroup found) ;;
  modify (set_currentTaskIndex 0) ;;
  modify (set_isPaused false) ;;
  match found with
  | Obj g =>
      if (List.length (Group.tasks g) =? 0)%nat
      then call (console_error "Cannot start an empty group.")
      else call requestWakeLock_call ;; processTask now
  | _ => call (console_error "Cannot start an empty group.")
  end.

(** The three readings of [Date.now()] a tick can make: for the elapsed
    time, for the saved [lastTick], and in [processTask] when the task has
    ended. *)
Definition timerTick (now nowSaved nowNext : Z) : M unit :=
  w <- get ;;
  match isPaused w, activeGroup w with
  | false, Obj g =>
      let elapsed := now - startTime w in
      let r := Z.max 0 (taskDurationMs w - elapsed) in
      modify (set_remainingTimeMs r) ;;
      call (updateTimerTime r (taskDurationMs w)) ;;
      saveTimerState
        {| groupId := Group.id g; taskIndex := currentTaskIndex w;
           paused := false; remaining := r;
           taskDuration := taskDurationMs w; lastTick := nowSaved |} ;;
      if r =? 0 then
        clearInterval (timerInterval w) ;;
        match task_at (Group.tasks g) (currentTaskIndex w) with
        | None => throw
        | Some currentTask =>
            (if notifies "end" currentTask
             then call (sendTaskNotification (Task.name currentTask) "end")
             else ret tt) ;;
            modify (set_currentTaskIndex (currentTaskIndex w + 1)) ;;
            processTask nowNext
        end
      else ret tt
  | _, _ => ret tt
  end.

(** [now] is read only when resuming, [nowSaved] is the saved [lastTick].
    The state object is built before [saveTimerState] is called, and its
    first property reads [activeGroup.id]. *)
Definition togglePause (now nowSaved : Z) : M bool :=
  modify (fun w => set_isPaused (negb (isPaused w)) w) ;;
  w <- get ;;
  (if negb (isPaused w) then
     modify (set_startTime (now - (taskDurationMs w - remainingTimeMs w))) ;;
     clearInterval (timerInterval w) ;;
     i <- setInterval ;;
     modify (set_timerInterval (Some i))
   else clearInterval (timerInterval w)) ;;
  match activeGroup w with
  | Obj g =>
      saveTimerState
        {| groupId := Group.id g; taskIndex := currentTaskIndex w;
           paused := isPaused w; remaining := remainingTimeMs w;
           taskDuration := taskDurationMs w; lastTick := nowSaved |} ;;
      ret (isPaused w)
  | _ => throw
  end.

Definition skipTask (now : Z) : M unit :=
  w <- get ;;
  if falsy (activeGroup w) then ret tt
  else
    clearInterval (timerInterval w) ;;
    modify (set_currentTaskIndex (currentTaskIndex w + 1)) ;;
    processTask now.

(** [now] and [nowStart] are the two readings made when the stored state is
    not paused. *)
Definition recoverTimer (state : TimerState) (now nowStart : Z) : M bool :=
  w <- get ;;
  let found := of_lookup (getGroupById (groups w) (groupId state)) in
  modify (set_activeGroup found) ;;
  match found with
  | Obj g =>
      match task_at (Group.tasks g) (taskIndex state) with
      | None => clearTimerState ;; ret false
      | Some currentTask =>
          modify (set_currentTaskIndex (taskIndex state)) ;;
          modify (set_taskDurationMs (taskDuration state)) ;;
          modify (set_remainingTimeMs (remaining state)) ;;
          modify (set_isPaused (paused state)) ;;
          call requestWakeLock_call ;;
          call (updateTimerDisplay currentTask (Group.name g)
                  (taskIndex state + 1)) ;;
          call (updateTimerTime (remaining state) (taskDuration state)) ;;
          (if negb (paused state) then
             let timeSinceLastTick := now - lastTick state in
             let r := Z.max 0 (remaining state - timeSinceLastTick) in
             modify (set_remainingTimeMs r) ;;
             modify (set_startTime (nowStart - (taskDuration state - r))) ;;
             i <- setInterval ;;
             modify (set_timerInterval (Some i))
           else ret tt) ;;
          ret true
      end
  | _ => clearTimerState ;; ret false
  end.

(** The host runs [timerTick] only while an interval is live. *)
Definition fire (r : Z * Z * Z) (w : World) : World :=
  match intervals w with
  | [] => w
  | _ :: _ => let '(now, nowSaved, nowNext) := r in
              world_of (timerTick now nowSaved nowNext w)
  end.

(** Successive firings, each with its own clock readings; an exception in
    one callback does not cancel the interval. *)
Fixpoint fires (rs : list (Z * Z * Z)) (w : World) : World :=
  match rs with
  | [] => w
  | r :: rs' => fires rs' (fire r w)
  end.

(** The catalog as the group builder stores it. *)
Definition set_groups (gs : list Group.t) (w : World) : World :=
  mkWorld gs (timerStateItem w) (activeGroup w) (currentTaskIndex w)
    (timerInterval w) (isPaused w) (startTime w) (taskDurationMs w)
    (remainingTimeMs w) (intervals w) (nextInterval w) (trace w).

(** The worlds the page can be in: [initApp] recovers a stored state once,
    at boot; afterwards the catalog is edited, the engine's entry points are
    called and live intervals fire, in any order and at any clock readings.
    A call that throws leaves its world behind. *)
Inductive reachable : World -> Prop :=
| reach_boot gs item : reachable (boot gs item)
| reach_recover gs st now nowStart :
    reachable (world_of (recoverTimer st now nowStart (boot gs (Some st))))
| reach_catalog w gs : reachable w -> reachable (set_groups gs w)
| reach_start w groupId now :
    reachable w -> reachable (world_of (startTimer groupId now w))
| reach_toggle w now nowSaved :
    reachable w -> reachable (world_of (togglePause now nowSaved w))
| reach_skip w now :
    reachable w -> reachable (world_of (skipTask now w))
| reach_stop w finished :
    reachable w -> reachable (world_of (stopTimer finished w))
| reach_fire w r : reachable w -> reachable (fire r w).

(** Every live interval is the one [timerInterval] holds. *)
Definition one_interval (w : World) : Prop :=
  forall i, In i (intervals w) -> timerInterval w = Some i.

(** The calls the user can observe: task display, notifications and the end
    of the routine. *)
Definition visible (e : Event) : bool :=
  match e with
  | updateTimerDisplay _ _ _ => true
  | sendTaskNotification _ _ => true
  | handleRoutineComplete _ => true
  | _ => false
  end.

(** What one task shows from its start to its end; [i] is the task's
    index. *)
Definition begin_events (g : Group.t) (i : Z) (t : Task.t) : list Event :=
  updateTimerDisplay t (Group.name g) (i + 1)
  :: (if notifies "start" t
      then [sendTaskNotification (Task.name t) "start"] else []).

Definition end_events (t : Task.t) : list Event :=
  if notifies "end" t then [sendTaskNotification (Task.name t) "end"] else [].

Definition task_events (g : Group.t) (i : Z) (t : Task.t) : list Event :=
  begin_events g i t ++ end_events t.

(** The tasks from index [i] on, in order. *)
Fixpoint events_from (g : Group.t) (i : Z) (ts : list Task.t) : list Event :=
  match ts with
  | [] => []
  | t :: ts' => task_events g i t ++ events_from g (i + 1) ts'
  end.

Definition routine_events (g : Group.t) : list Event :=
  events_from g 0 (Group.tasks g) ++ [handleRoutineComplete true].

(** Clock readings under which each task is seen to end at its first tick:
    the tick reads the task's start plus its duration. *)
Fixpoint punctual (start : Z) (ts : list Task.t) : list (Z * Z * Z) :=
  match ts with
  | [] => []
  | t :: ts' =>
      let t1 := start + Z.max 0 (timeToMs (Task.duration t)) in
      (t1, t1, t1) :: punctual t1 ts'
  end.

(** Task [k] of group [g] is running: begun by [processTask], not paused,
    its interval live. *)
Definition running_at (g : Group.t) (k : nat) (t : Task.t) (w : World) : Prop :=
  activeGroup w = Obj g /\ isPaused w = false /\
  currentTaskIndex w = Z.of_nat k /\
  nth_error (Group.tasks g) k = Some t /\
  taskDurationMs w = timeToMs (Task.duration t) /\
  intervals w <> [].

(** How far a routine started on a world whose log was [before] has come,
    by what it has shown. *)
Inductive progress (g : Group.t) (before : list Event) (w : World) : Prop :=
| at_task k t es :
    running_at g k t w ->
    trace w = (before ++ es)%list ->
    filter visible es
    = (events_from g 0 (firstn k (Group.tasks g))
       ++ begin_events g (Z.of_nat k) t)%list ->
    progress g before w
| completed es :
    activeGroup w = Null ->
    trace w = (before ++ es)%list ->
    filter visible es = routine_events g ->
    progress g before w.

End Engine.

(** [timeToMs] as the engine receives it, on texts whose value the codec
    model determines. *)
Definition timeToMsZ (timeStr : string) : Z :=
  match App.timeToMs timeStr with
  | Some ms => ms
  | None => 0
  end.

(** The routine [initApp] installs in an empty catalog. *)
Definition demo : Group.t :=
  Group.mk "group-default" "Quick Demo Routine" (Some "#17a2b8")
    [ Task.mk "Warm-up" "00:03:00" "end" "w";
      Task.mk "Work Set" "00:15:00" "start" "s";
      Task.mk "Cool-down" "00:05:00" "end" "c" ].

(** A stored group that lost its tasks. *)
Definition hollow : Group.t := Group.mk "group-1" "Empty" None [].

(** A world with more calls logged. *)
Definition logs (es : list Event) (w : World) : World :=
  mkWorld (groups w) (timerStateItem w) (activeGroup w) (currentTaskIndex w)
    (timerInterval w) (isPaused w) (startTime w) (taskDurationMs w)
    (remainingTimeMs w) (intervals w) (nextInterval w) (trace w ++ es).

(** The state object that [timerTick] and [togglePause] save. *)
Definition snapshot (g : Group.t) (w : World) (p : bool) (r lastTick : Z)
  : TimerState :=
  {| groupId := Group.id g; taskIndex := currentTaskIndex w; paused := p;
     remaining := r; taskDuration := taskDurationMs w; lastTick := lastTick |}.

Definition is_routine_end (e : Event) : bool :=
  match e with
  | handleRoutineComplete _ => true
  | _ => false
  end.

(** The calls [stopTimer] makes. *)
Definition stop_calls (finished : bool) (w : World) : list Event :=
  [clearInterval_call (timerInterval w); releaseWakeLock_call;
   clearTimerState_call]
  ++ (if not_null (activeGroup w) then [handleRoutineComplete finished]
      else []).

(** Sample worlds: the demo routine loaded; running its first task; paused
    in its second task. *)
Definition loaded : World := boot [demo; hollow] None.

Definition started : World :=
  world_of (startTimer timeToMsZ "group-default" 1000 loaded).


(** Stored states: one of the demo routine's second task, one whose group
    is gone, one whose index is past the last task. *)
Definition stored_ok : TimerState :=
  mkTimerState "group-default" 1 false 10000 900000 50000.



(** No engine variable says a group is active, and no interval is live. *)
Definition Idle (w : World) : Prop :=
  falsy (activeGroup w) = true /\ intervals w = [].

(** The session fields of the engine. *)
Definition session (w : World) : GroupRef * Z * bool :=
  (activeGroup w, currentTaskIndex w, isPaused w).

(** Unfolding of the monad and of the record updates, leaving the tests of
    the source in place. *)
Ltac mrun :=
  cbv beta iota zeta delta
    [bind get modify ret call throw clearInterval setInterval saveTimerState
     clearTimerState log set_timerStateItem set_activeGroup
     set_currentTaskIndex set_timerInterval set_isPaused set_startTime
     set_taskDurationMs set_remainingTimeMs set_intervals set_groups
     groups timerStateItem activeGroup currentTaskIndex timerInterval
     isPaused startTime taskDurationMs remainingTimeMs intervals nextInterval
     trace world_of threw].

End TimerEngine.

(* ================================================================== *)
(** ** The host's intervals, and further sample data *)
(* ================================================================== *)

Module Timers.
Import Storage TimerEngine.

(** The shape the interval table keeps on the page: nothing live, or the
    one interval [timerInterval] holds, issued before [nextInterval] and
    running an engine that is not paused. *)
Definition tidy (w : World) : Prop :=
  intervals w = [] \/
  exists i, intervals w = [i] /\ timerInterval w = Some i /\
            (i < nextInterval w)%nat /\ isPaused w = false.

(** A second routine, of one task, beside the demo routine. *)
Definition stretch : Group.t :=
  Group.mk "group-2" "Stretch" None [Task.mk "Hold" "00:00:30" "both" "h"].

Definition loaded_two : World := boot [demo; stretch] None.

Definition started_two : World :=
  world_of (startTimer timeToMsZ "group-default" 1000 loaded_two).

(** The stored state of the demo routine paused in its second task. *)
Definition stored_paused : TimerState :=
  mkTimerState "group-default" 1 true 10000 900000 50000.

End Timers.

(* ================================================================== *)
(** ** js/app.js : saving and copying groups *)
(* ================================================================== *)

Module Builder.
Import Storage TimerEngine.

(** What the handlers read from the document: the fields of the group
    form and, per task row, the four inputs of the row. *)
Record Row : Type := mkRow
  { row_name : string; row_duration : string; row_notify : string;
    row_icon : string }.

Record Form : Type := mkForm
  { id_value : string; name_value : string; color_value : string;
    rows : list Row }.

(** The button of a group card that a click reached, with its
    [data-group-id]. *)
Inductive Button : Type :=
| no_button
| start_btn (groupId : string)
| edit_btn (groupId : string)
| copy_btn (groupId : string)
| other_btn (groupId : string).

(** What the handlers show and store besides the catalog. *)
Inductive Ui : Type :=
| alert (msg : string)
| saveData_call
| showDashboard_call
| renderGroupCards_call
| showGroupBuilder_call (groupId : string).

(** The engine's world (its [groups] is the catalog of [storage.js]), the
    catalog as last written to [localStorage], and the log of what the
    handlers did to the page. *)
Record Page : Type := mkPage
  { engine : World; savedGroups : list Group.t; ui : list Ui }.

Definition show (u : Ui) (p : Page) : Page :=
  mkPage (engine p) (savedGroups p) (ui p ++ [u]).

Definition with_groups (gs : list Group.t) (p : Page) : Page :=
  mkPage (set_groups gs (engine p)) (savedGroups p) (ui p).

(** [Storage.saveData()] *)
Definition saveData (p : Page) : Page :=
  mkPage (engine p) (groups (engine p)) (ui p ++ [saveData_call]).

(** [!s] for a string *)
Definition is_empty (s : string) : bool :=
  match s with
  | EmptyString => true
  | _ => false
  end.

(** The loop over the task rows: the tasks collected, or the rejection of a
    duration that is not positive, or a duration outside the fragment of
    [App.timeToMs]. *)
Inductive Collected : Type :=
| Tasks (ts : list Task.t)
| NotPositive
| Undetermined.

(** [Storage.groups[index] = { ...Storage.groups[index], ...group }] at the
    index [findIndex] gives; no index, no change. *)
Fixpoint replace_first (groupId : string) (f : Group.t -> Group.t)
  (gs : list Group.t) : list Group.t :=
  match gs with
  | [] => []
  | g :: r =>
      if String.eqb (Group.id g) groupId then f g :: r
      else g :: replace_first groupId f r
  end.

(** ['group-' + Date.now()] *)
Definition fresh_id (now : Z) : string := "group-" ++ App.String_of now.

Section Handlers.

(** [String.prototype.trim], the host's. *)
Variable trim : string -> string.

(** The engine's [timeToMs], at its integral values. *)
Variable timeToMs : string -> Z.

Fixpoint collect (rs : list Row) : Collected :=
  match rs with
  | [] => Tasks []
  | r :: rest =>
      let name := trim (row_name r) in
      let duration := trim (row_duration r) in
      if is_empty name || is_empty duration then collect rest
      else
        match App.timeToMs duration with
        | None => Undetermined
        | Some ms =>
            if ms <=? 0 then NotPositive
            else
              match collect rest with
              | Tasks ts =>
                  Tasks (Task.mk name duration (row_notify r) (row_icon r)
                         :: ts)
              | other => other
              end
        end
  end.

(** [saveGroupHandler()], on the form as read and the reading of
    [Date.now()]; [None] where a duration or the clock is outside what the
    model determines. *)
Definition saveGroupHandler (f : Form) (now : Z) (p : Page) : option Page :=
  let groupName := trim (name_value f) in
  if is_empty groupName then Some (show (alert "Group name is required.") p)
  else
    match collect (rows f) with
    | Undetermined => None
    | NotPositive =>
        Some (show (alert "Task duration must be greater than 0.") p)
    | Tasks [] =>
        Some (show (alert "A group must have at least one task.") p)
    | Tasks newTasks =>
        if negb (is_empty (id_value f)) then
          Some (show showDashboard_call
                  (saveData
                     (with_groups
                        (replace_first (id_value f)
                           (fun old =>
                              Group.mk (Group.id old) groupName
                                (Some (color_value f)) newTasks)
                           (groups (engine p)))
                        p)))
        else if (50 <=? List.length (groups (engine p)))%nat then
          Some (show (alert "Max of 50 groups reached.") p)
        else
          match App.exact now with
          | None => None
          | Some n =>
              Some (show showDashboard_call
                      (saveData
                         (with_groups
                            (groups (engine p)
                             ++ [Group.mk (fresh_id n) groupName
                                   (Some (color_value f)) newTasks])%list
                            p)))
          end
    end.

(** [handleGroupAction(e)], on the button the click reached. *)
Definition handleGroupAction (b : Button) (now : Z) (p : Page) : option Page :=
  match b with
  | no_button => Some p
  | start_btn groupId =>
      Some (mkPage (world_of (startTimer timeToMs groupId now (engine p)))
              (savedGroups p) (ui p))
  | edit_btn groupId => Some (show (showGroupBuilder_call groupId) p)
  | copy_btn groupId =>
      match getGroupById (groups (engine p)) groupId with
      | None => Some p
      | Some original =>
          if (50 <=? List.length (groups (engine p)))%nat then Some p
          else
            match App.exact now with
            | None => None
            | Some n =>
                Some (show renderGroupCards_call
                        (saveData
                           (with_groups
                              (groups (engine p)
                               ++ [Group.mk (fresh_id n)
                                     ("Copy of " ++ Group.name original)
                                     (Group.color original)
                                     (Group.tasks original)])%list
                              p)))
            end
      end
  | other_btn _ => Some p
  end.

End Handlers.

(** A task of a stored group as the builder accepts it: named, with a
    duration that [App.timeToMs] reads as positive. *)
Definition accepted (t : Task.t) : Prop :=
  Task.name t <> EmptyString /\
  exists ms, App.timeToMs (Task.duration t) = Some ms /\ 0 < ms.

(** A form for a new group of two rows, the second left blank, and the
    page it is filled in on; [id] stands in for a [trim] on texts that have
    nothing to trim. *)
Definition new_form : Form :=
  mkForm "" "Morning" "#007bff"
    [mkRow "Plank" "0:01:30" "both" "p"; mkRow "" "00:05:00" "end" "x"].

Definition plain_trim (s : string) : string := s.

Definition page : Page := mkPage loaded [] [].

(** The group that form creates at the clock reading 1700000000000, and
    the page after. *)
Definition created : Group.t :=
  Group.mk "group-1700000000000" "Morning" (Some "#007bff")
    [Task.mk "Plank" "0:01:30" "both" "p"].

Definition page_after : Page :=
  show showDashboard_call
    (saveData (with_groups (groups (engine page) ++ [created])%list page)).

(** The page after a click on the demo routine's copy button. *)
Definition page_copied : Page :=
  show renderGroupCards_call
    (saveData
       (with_groups
          (groups (engine page)
           ++ [Group.mk "group-1700000000000" "Copy of Quick Demo Routine"
                 (Some "#17a2b8") (Group.tasks demo)])%list
          page)).

End Builder.

(* ================================================================== *)
(** ** Facts about the duration codec *)
(* ================================================================== *)

Section CodecFacts.
Import App.

Lemma exact_in_range z : Z.abs z <= 2 ^ 53 -> exact z = Some z.
Proof.
  intros H. unfold exact.
  destruct (Z.leb_spec (Z.abs z) (2 ^ 53)) as [_|Hgt]; [reflexivity|lia].
Qed.

Lemma split_colon_free s : colon_free s = true -> split ":" s = [s].
Proof.
  induction s as [|c r IH]; simpl; [reflexivity|].
  intros H. apply andb_true_iff in H as [Hc Hr].
  destruct (Ascii.eqb c ":"); [discriminate|].
  rewrite (IH Hr). reflexivity.
Qed.

Lemma split_app_colon p rest :
  colon_free p = true ->
  split ":" (p ++ ":" ++ rest) = p :: split ":" rest.
Proof.
  induction p as [|c r IH]; simpl; [reflexivity|].
  intros H. apply andb_true_iff in H as [Hc Hr].
  destruct (Ascii.eqb c ":"); [discriminate|].
  specialize (IH Hr). simpl in IH. rewrite IH. reflexivity.
Qed.

(** Splitting at the colons recovers the fields that were joined. *)
Lemma split_join fields :
  fields <> [] -> forallb colon_free fields = true ->
  split ":" (join fields) = fields.
Proof.
  induction fields as [|p ps IH]; [congruence|].
  intros _ H. simpl in H. apply andb_true_iff in H as [Hp Hps].
  destruct ps as [|q qs].
  - simpl. apply split_colon_free, Hp.
  - change (join (p :: q :: qs)) with (p ++ ":" ++ join (q :: qs)).
    rewrite (split_app_colon _ _ Hp), IH; [reflexivity|discriminate|exact Hps].
Qed.

Lemma digit_range c d : digit c = Some d -> 0 <= d <= 9 /\ Ascii.eqb c ":" = false.
Proof.
  unfold digit. intros H.
  destruct (andb _ _) eqn:E; [|discriminate].
  injection H as <-. apply andb_true_iff in E as [E1 E2].
  apply Z.leb_le in E1, E2. split; [lia|].
  apply Ascii.eqb_neq. intros ->. vm_compute in E2. apply E2. reflexivity.
Qed.

Lemma digits_acc_facts s : forall acc z,
  0 <= acc -> digits_acc acc s = Some z -> acc <= z /\ colon_free s = true.
Proof.
  induction s as [|c r IH]; simpl; intros acc z Hacc H.
  - injection H as <-. split; [lia|reflexivity].
  - destruct (digit c) as [d|] eqn:Hd; [|discriminate].
    destruct (digit_range _ _ Hd) as [Hr Hc]. rewrite Hc. simpl.
    destruct (IH (10 * acc + d) z ltac:(lia) H). split; [lia|assumption].
Qed.

Lemma decimal_facts s z : decimal s = Some z -> 0 <= z /\ colon_free s = true.
Proof.
  destruct s as [|c r]; [discriminate|].
  unfold decimal. apply digits_acc_facts. lia.
Qed.

(** A run of digits within the exact range reads as its value. *)
Lemma Number_decimal s z :
  decimal s = Some z -> z <= 2 ^ 53 -> Number s = Some (Num z).
Proof.
  intros H Hz. destruct (decimal_facts _ _ H) as [H0 _].
  destruct s as [|c r]; [discriminate|].
  unfold Number. rewrite H, exact_in_range by lia. reflexivity.
Qed.

Lemma field_reads_part fields i v :
  field_reads fields i v -> part_or_0 fields i = Some v.
Proof.
  unfold part_or_0.
  intros [Hn | p Hn Hp | p z Hn Hp]; rewrite Hn; try rewrite Hp; reflexivity.
Qed.

Lemma timeToMs_fields fields h m s :
  fields <> [] -> forallb colon_free fields = true ->
  field_reads fields 0 h -> field_reads fields 1 m -> field_reads fields 2 s ->
  (Z.abs h * 3600 + Z.abs m * 60 + Z.abs s) * 1000 <= 2 ^ 53 ->
  timeToMs (join fields) = Some ((h * 3600 + m * 60 + s) * 1000).
Proof.
  intros Hne Hcf Hh Hm Hs Hb. unfold timeToMs.
  rewrite (split_join _ Hne Hcf).
  rewrite (field_reads_part _ _ _ Hh), (field_reads_part _ _ _ Hm),
    (field_reads_part _ _ _ Hs).
  cbn [App.bind].
  rewrite (exact_in_range (h * 3600)) by lia. cbn [App.bind].
  rewrite (exact_in_range (m * 60)) by lia. cbn [App.bind].
  rewrite (exact_in_range (h * 3600 + m * 60)) by lia. cbn [App.bind].
  rewrite (exact_in_range (h * 3600 + m * 60 + s)) by lia. cbn [App.bind].
  apply exact_in_range. lia.
Qed.

Lemma String_of_length n : (1 <= String.length (String_of n))%nat.
Proof.
  assert (Hu : forall d, d <> Decimal.Nil ->
             (1 <= String.length (NilZero.string_of_uint d))%nat).
  { intros d Hd. destruct d; simpl; solve [lia | congruence]. }
  unfold String_of. destruct n as [|p|p]; simpl.
  - lia.
  - apply Hu, DecimalPos.Unsigned.to_uint_nonnil.
  - pose proof (Hu _ (DecimalPos.Unsigned.to_uint_nonnil p)). lia.
Qed.

Lemma padStart_pad2 n : padStart 2 "0" (String_of n) = pad2 n.
Proof.
  unfold padStart, pad2. pose proof (String_of_length n) as H.
  destruct (String.length (String_of n)) as [|[|k]]; [lia| |]; reflexivity.
Qed.

Lemma msToTime_whole_seconds t :
  0 <= t -> t * 1000 <= 2 ^ 53 ->
  msToTime (t * 1000) = Some (normalize_hms t).
Proof.
  intros H0 Hb. unfold msToTime.
  rewrite exact_in_range by lia. cbn [App.bind].
  unfold round_div_1000. rewrite Z.div_add_l by lia.
  change (500 / 1000) with 0. rewrite Z.add_0_r.
  rewrite !Z.rem_mod_nonneg by lia.
  rewrite !padStart_pad2. reflexivity.
Qed.

(** C9: [timeToMs] returns 300000 for 00:05:00, 3723000 for 1:02:03 and 0
    for the non-numeric text bad; the colon-separated fields are read left
    to right as hours, minutes and seconds, a missing field and a
    non-numeric field each counting 0. *)
Theorem timeToMs_left_to_right :
  timeToMs "00:05:00" = Some 300000 /\
  timeToMs "1:02:03" = Some 3723000 /\
  timeToMs "bad" = Some 0 /\
  forall fields h m s,
    fields <> [] -> forallb colon_free fields = true ->
    field_reads fields 0 h -> field_reads fields 1 m ->
    field_reads fields 2 s ->
    (Z.abs h * 3600 + Z.abs m * 60 + Z.abs s) * 1000 <= 2 ^ 53 ->
    timeToMs (join fields) = Some ((h * 3600 + m * 60 + s) * 1000).
Proof.
  repeat split; try reflexivity.
  intros fields h m s. apply timeToMs_fields.
Qed.

(** A two-field text is hours and minutes: the non-numeric minutes and the
    missing seconds of 2:x count 0. *)
Lemma timeToMs_left_to_right_witness :
  timeToMs "2:x" = Some 7200000.
Proof.
  apply (proj2 (proj2 (proj2 timeToMs_left_to_right)) ["2"; "x"] 2 0 0).
  - discriminate.
  - reflexivity.
  - apply field_numeric with (p := "2"); reflexivity.
  - apply field_non_numeric with (p := "x"); reflexivity.
  - apply field_missing; reflexivity.
  - vm_compute. discriminate.
Defined.

(** C8: for a valid HH:MM:SS text (three runs of decimal digits joined by
    colons), [msToTime (timeToMs text)] is the zero-padded normal form of
    the same total number of seconds. *)
Theorem msToTime_timeToMs_roundtrip hh mm ss h m s :
  decimal hh = Some h -> decimal mm = Some m -> decimal ss = Some s ->
  total_seconds h m s * 1000 <= 2 ^ 53 ->
  msToTime_of_timeToMs (hms_text hh mm ss)
  = Some (normalize_hms (total_seconds h m s)).
Proof.
  intros Hh Hm Hs Hb. unfold total_seconds in *.
  destruct (decimal_facts _ _ Hh) as [Hh0 Hhc].
  destruct (decimal_facts _ _ Hm) as [Hm0 Hmc].
  destruct (decimal_facts _ _ Hs) as [Hs0 Hsc].
  unfold msToTime_of_timeToMs.
  change (hms_text hh mm ss) with (join [hh; mm; ss]).
  rewrite (timeToMs_fields [hh; mm; ss] h m s).
  - cbn [App.bind].
    replace (h * 3600 + m * 60 + s) with (3600 * h + 60 * m + s) by lia.
    apply msToTime_whole_seconds; lia.
  - discriminate.
  - simpl. rewrite Hhc, Hmc, Hsc. reflexivity.
  - apply field_numeric with (p := hh); [reflexivity|].
    apply Number_decimal; [assumption|lia].
  - apply field_numeric with (p := mm); [reflexivity|].
    apply Number_decimal; [assumption|lia].
  - apply field_numeric with (p := ss); [reflexivity|].
    apply Number_decimal; [assumption|lia].
  - lia.
Qed.

(** Ninety minutes and seventy-five seconds normalise to 01:31:15. *)
Lemma msToTime_timeToMs_roundtrip_witness :
  msToTime_of_timeToMs "0:90:75" = Some "01:31:15".
Proof.
  apply (msToTime_timeToMs_roundtrip "0" "90" "75" 0 90 75);
    try reflexivity.
  vm_compute. discriminate.
Defined.

End CodecFacts.

(* ================================================================== *)
(** ** Facts about the timer engine *)
(* ================================================================== *)

Section EngineFacts.
Import Storage TimerEngine.
Local Open Scope list_scope.

Variable timeToMs : string -> Z.

Lemma stopTimer_returns finished w :
  stopTimer finished w
  = Returned tt
      (mkWorld (groups w) None Null 0 (timerInterval w) false (startTime w)
         (taskDurationMs w) (remainingTimeMs w)
         (cancel (timerInterval w) (intervals w)) (nextInterval w)
         (trace w ++ stop_calls finished w)).
Proof.
  destruct w as [gs it ag idx ti ip st td rm iv nx tr].
  unfold stopTimer, stop_calls. mrun.
  destruct (not_null ag); mrun; rewrite <- ?app_assoc; reflexivity.
Qed.

Lemma cancel_twice h l : cancel h (cancel h l) = cancel h l.
Proof.
  destruct h as [i|]; simpl; [apply remove_remove_eq|reflexivity].
Qed.

(** [stopTimer] cancels the interval and clears the stored state whatever
    [activeGroup] holds, and calls [handleRoutineComplete] exactly when the
    test [activeGroup !== null] passes, which the [undefined] of a failed
    lookup does too; a second call finds [activeGroup] null, changes
    nothing and reports nothing. *)
Lemma stopTimer_reports_iff_active finished again w :
  let w' := world_of (stopTimer finished w) in
  stopTimer finished w = Returned tt w' /\
  intervals w' = cancel (timerInterval w) (intervals w) /\
  timerStateItem w' = None /\
  trace w' = trace w ++ stop_calls finished w /\
  existsb is_routine_end (stop_calls finished w) = not_null (activeGroup w) /\
  stopTimer again w'
  = Returned tt
      (logs [clearInterval_call (timerInterval w); releaseWakeLock_call;
             clearTimerState_call] w').
Proof.
  intros w'. subst w'. rewrite stopTimer_returns. cbn [world_of].
  repeat split.
  - unfold stop_calls. destruct (not_null (activeGroup w)); reflexivity.
  - rewrite stopTimer_returns. unfold logs, stop_calls at 2.
    cbn [groups timerStateItem activeGroup currentTaskIndex timerInterval
         isPaused startTime taskDurationMs remainingTimeMs intervals
         nextInterval trace not_null].
    rewrite cancel_twice. reflexivity.
Qed.

Lemma togglePause_without_group now nowSaved w :
  falsy (activeGroup w) = true ->
  threw (togglePause now nowSaved w) = true /\
  isPaused (world_of (togglePause now nowSaved w)) = negb (isPaused w) /\
  timerStateItem (world_of (togglePause now nowSaved w)) = timerStateItem w.
Proof.
  destruct w as [gs it ag idx ti ip st td rm iv nx tr]. cbn [activeGroup].
  intros Hf. unfold togglePause. mrun.
  destruct ip; cbn [negb]; mrun;
    destruct ag; try discriminate; repeat split; reflexivity.
Qed.

(** C7, at the idle engine: on the module as loaded and on the world
    [stopTimer] leaves, [togglePause] flips [isPaused], touches the
    interval and then throws on [activeGroup.id]; nothing is saved. *)
Theorem togglePause_throws_when_idle gs item finished w now nowSaved :
  threw (togglePause now nowSaved (boot gs item)) = true /\
  isPaused (world_of (togglePause now nowSaved (boot gs item))) = true /\
  threw (togglePause now nowSaved (world_of (stopTimer finished w))) = true /\
  isPaused (world_of (togglePause now nowSaved (world_of (stopTimer finished w))))
  = true.
Proof.
  destruct (togglePause_without_group now nowSaved (boot gs item) eq_refl)
    as (H1 & H2 & _).
  assert (Hs : falsy (activeGroup (world_of (stopTimer finished w))) = true)
    by (rewrite stopTimer_returns; reflexivity).
  destruct (togglePause_without_group now nowSaved _ Hs) as (H3 & H4 & _).
  repeat split; try assumption.
  rewrite H4, stopTimer_returns. reflexivity.
Qed.


Lemma task_at_in_range ts i :
  0 <= i < Z.of_nat (List.length ts) -> exists t, task_at ts i = Some t.
Proof.
  intros H. unfold task_at.
  destruct (Z.ltb_spec i 0); [lia|].
  destruct (nth_error ts (Z.to_nat i)) eqn:E; [eauto|].
  apply nth_error_None in E. lia.
Qed.



(** What a refused start leaves: the session variables re-initialised,
    one error logged, everything else as it was. *)
Lemma startTimer_refused groupId now w :
  getGroupById (groups w) groupId = None \/
  (exists g, getGroupById (groups w) groupId = Some g /\ Group.tasks g = []) ->
  startTimer timeToMs groupId now w
  = Returned tt
      (mkWorld (groups w) (timerStateItem w)
         (of_lookup (getGroupById (groups w) groupId))
         0 (timerInterval w) false (startTime w)
         (taskDurationMs w) (remainingTimeMs w) (intervals w)
         (nextInterval w)
         (trace w ++ [console_error "Cannot start an empty group."])).
Proof.
  destruct w as [gs it ag idx ti ip st td rm iv nx tr].
  cbn [groups]. unfold startTimer. mrun.
  intros [H | (g & H & Ht)]; rewrite H; cbn [of_lookup]; mrun.
  - reflexivity.
  - rewrite Ht. reflexivity.
Qed.


(** C2: for a stored state that is not paused and whose group and task
    index resolve, [recoverTimer] returns [true] with [remainingTimeMs] the
    stored remaining time less the time since the stored [lastTick], floored
    at 0, re-derives [startTime] from it and starts an interval; stored
    10000 ms with [lastTick] T, recovered at T + 4000, leaves 6000 ms. *)
Theorem recoverTimer_deducts_time_away state g t now nowStart w :
  paused state = false ->
  getGroupById (groups w) (groupId state) = Some g ->
  task_at (Group.tasks g) (taskIndex state) = Some t ->
  let w' := world_of (recoverTimer state now nowStart w) in
  let r := Z.max 0 (remaining state - (now - lastTick state)) in
  recoverTimer state now nowStart w = Returned true w' /\
  remainingTimeMs w' = r /\
  startTime w' = nowStart - (taskDuration state - r) /\
  taskDurationMs w' = taskDuration state /\
  session w' = (Obj g, taskIndex state, false) /\
  timerInterval w' = Some (nextInterval w) /\
  intervals w' = intervals w ++ [nextInterval w] /\
  (remaining state = 10000 -> now = lastTick state + 4000 ->
   remainingTimeMs w' = 6000).
Proof.
  intros Hp Hg Ht. cbv zeta.
  destruct w as [gs it ag idx ti ip st td rm iv nx tr].
  cbn [groups] in Hg.
  unfold recoverTimer. mrun. rewrite Hg. cbn [of_lookup]. mrun.
  rewrite Ht. mrun. rewrite Hp. cbn [negb]. mrun.
  repeat split; try reflexivity.
  intros Hr Hn. rewrite Hr, Hn. lia.
Qed.

(** A paused tick and a tick without a group do nothing. *)
Lemma timerTick_skips now nowSaved nowNext w :
  isPaused w = true \/ falsy (activeGroup w) = true ->
  timerTick timeToMs now nowSaved nowNext w = Returned tt w.
Proof.
  destruct w as [gs it ag idx ti ip st td rm iv nx tr].
  cbn [isPaused activeGroup]. unfold timerTick. mrun.
  intros [H|H]; [rewrite H; reflexivity|].
  destruct ag; try discriminate; destruct ip; reflexivity.
Qed.

Lemma fires_skip rs : forall w,
  isPaused w = true \/ falsy (activeGroup w) = true -> fires timeToMs rs w = w.
Proof.
  induction rs as [|[[a b] c] rs IH]; intros w H; [reflexivity|].
  cbn [fires]. unfold fire.
  destruct (intervals w); [apply IH, H|].
  rewrite (timerTick_skips _ _ _ _ H). cbn [world_of]. apply IH, H.
Qed.

(** A tick of a running task that does not end it. *)
Lemma timerTick_counts g now nowSaved nowNext w :
  activeGroup w = Obj g -> isPaused w = false ->
  let r := Z.max 0 (taskDurationMs w - (now - startTime w)) in
  r <> 0 ->
  timerTick timeToMs now nowSaved nowNext w
  = Returned tt
      (mkWorld (groups w) (Some (snapshot g w false r nowSaved)) (Obj g)
         (currentTaskIndex w) (timerInterval w) false (startTime w)
         (taskDurationMs w) r (intervals w) (nextInterval w)
         (trace w ++ [updateTimerTime r (taskDurationMs w);
                      saveTimerState_call (snapshot g w false r nowSaved)])).
Proof.
  destruct w as [gs it ag idx ti ip st td rm iv nx tr].
  cbn [isPaused activeGroup taskDurationMs startTime].
  intros -> -> Hr. unfold timerTick, snapshot. mrun.
  destruct (Z.eqb_spec (Z.max 0 (td - (now - st))) 0) as [E|_];
    [contradiction|].
  rewrite <- app_assoc. reflexivity.
Qed.

(** The tick that ends a task: it reports 0, saves, cancels the interval,
    notifies the end and hands the next index to [processTask]. *)
Lemma timerTick_ends g t now nowSaved nowNext w :
  activeGroup w = Obj g -> isPaused w = false ->
  Z.max 0 (taskDurationMs w - (now - startTime w)) = 0 ->
  task_at (Group.tasks g) (currentTaskIndex w) = Some t ->
  timerTick timeToMs now nowSaved nowNext w
  = processTask timeToMs nowNext
      (mkWorld (groups w) (Some (snapshot g w false 0 nowSaved)) (Obj g)
         (currentTaskIndex w + 1) (timerInterval w) false (startTime w)
         (taskDurationMs w) 0
         (cancel (timerInterval w) (intervals w)) (nextInterval w)
         (trace w ++ [updateTimerTime 0 (taskDurationMs w);
                      saveTimerState_call (snapshot g w false 0 nowSaved);
                      clearInterval_call (timerInterval w)]
                 ++ end_events t)).
Proof.
  destruct w as [gs it ag idx ti ip st td rm iv nx tr].
  cbn [isPaused activeGroup taskDurationMs startTime currentTaskIndex].
  intros -> -> Hr Ht. unfold timerTick, snapshot, end_events. mrun.
  rewrite Hr, Ht. cbn [Z.eqb]. mrun.
  destruct (notifies "end" t); mrun; rewrite <- ?app_assoc; reflexivity.
Qed.

(** [togglePause] with a group active. *)
Lemma togglePause_pauses g now nowSaved w :
  activeGroup w = Obj g -> isPaused w = false ->
  togglePause now nowSaved w
  = Returned true
      (mkWorld (groups w)
         (Some (snapshot g w true (remainingTimeMs w) nowSaved)) (Obj g)
         (currentTaskIndex w) (timerInterval w) true (startTime w)
         (taskDurationMs w) (remainingTimeMs w)
         (cancel (timerInterval w) (intervals w)) (nextInterval w)
         (trace w ++ [clearInterval_call (timerInterval w);
                      saveTimerState_call
                        (snapshot g w true (remainingTimeMs w) nowSaved)])).
Proof.
  destruct w as [gs it ag idx ti ip st td rm iv nx tr].
  cbn [isPaused activeGroup]. intros -> ->.
  unfold togglePause, snapshot. mrun. cbn [negb]. mrun.
  rewrite <- app_assoc. reflexivity.
Qed.

Lemma togglePause_resumes g now nowSaved w :
  activeGroup w = Obj g -> isPaused w = true ->
  togglePause now nowSaved w
  = Returned false
      (mkWorld (groups w)
         (Some (snapshot g w false (remainingTimeMs w) nowSaved)) (Obj g)
         (currentTaskIndex w) (Some (nextInterval w)) false
         (now - (taskDurationMs w - remainingTimeMs w))
         (taskDurationMs w) (remainingTimeMs w)
         (cancel (timerInterval w) (intervals w) ++ [nextInterval w])
         (S (nextInterval w))
         (trace w ++ [clearInterval_call (timerInterval w);
                      setInterval_call (nextInterval w);
                      saveTimerState_call
                        (snapshot g w false (remainingTimeMs w) nowSaved)])).
Proof.
  destruct w as [gs it ag idx ti ip st td rm iv nx tr].
  cbn [isPaused activeGroup]. intros -> ->.
  unfold togglePause, snapshot. mrun. cbn [negb]. mrun.
  rewrite <- !app_assoc. reflexivity.
Qed.

Lemma task_at_Some ts i t :
  task_at ts i = Some t -> 0 <= i < Z.of_nat (List.length ts).
Proof.
  unfold task_at. destruct (Z.ltb_spec i 0) as [Hneg|Hpos]; [discriminate|].
  intros Ht. assert (Hn : nth_error ts (Z.to_nat i) <> None) by congruence.
  apply nth_error_Some in Hn. lia.
Qed.

(** [processTask] on a task in range: the task begins. *)
Lemma processTask_begins g t now w :
  activeGroup w = Obj g ->
  task_at (Group.tasks g) (currentTaskIndex w) = Some t ->
  processTask timeToMs now w
  = Returned tt
      (mkWorld (groups w) (timerStateItem w) (Obj g) (currentTaskIndex w)
         (Some (nextInterval w)) false now
         (timeToMs (Task.duration t)) (timeToMs (Task.duration t))
         (cancel (timerInterval w) (intervals w) ++ [nextInterval w])
         (S (nextInterval w))
         (trace w ++ begin_events g (currentTaskIndex w) t
                 ++ [clearInterval_call (timerInterval w);
                     setInterval_call (nextInterval w)])).
Proof.
  destruct w as [gs it ag idx ti ip st td rm iv nx tr].
  cbn [activeGroup currentTaskIndex]. intros -> Ht.
  pose proof (task_at_Some _ _ _ Ht) as Hr.
  unfold processTask, begin_events. mrun.
  destruct (Z.geb_spec idx (Z.of_nat (List.length (Group.tasks g))));
    [lia|].
  rewrite Ht. mrun.
  destruct (notifies "start" t); mrun; rewrite <- ?app_assoc; reflexivity.
Qed.

(** [processTask] past the last task, or without a group: the routine is
    stopped as finished. *)
Lemma processTask_finishes now w :
  falsy (activeGroup w) = true \/
  (exists g, activeGroup w = Obj g /\
             Z.of_nat (List.length (Group.tasks g)) <= currentTaskIndex w) ->
  processTask timeToMs now w = stopTimer true w.
Proof.
  destruct w as [gs it ag idx ti ip st td rm iv nx tr].
  cbn [activeGroup currentTaskIndex]. unfold processTask. mrun.
  intros [Hf | (g & Hg & Hle)].
  - destruct ag; [reflexivity|reflexivity|discriminate].
  - subst ag.
    destruct (Z.geb_spec idx (Z.of_nat (List.length (Group.tasks g))));
      [reflexivity|lia].
Qed.

Lemma processTask_extends now w :
  exists es, trace (world_of (processTask timeToMs now w)) = trace w ++ es.
Proof.
  destruct (activeGroup w) as [| |g] eqn:Hg.
  - rewrite processTask_finishes, stopTimer_returns
      by (left; rewrite Hg; reflexivity). eexists; reflexivity.
  - rewrite processTask_finishes, stopTimer_returns
      by (left; rewrite Hg; reflexivity). eexists; reflexivity.
  - destruct (Z.le_gt_cases (Z.of_nat (List.length (Group.tasks g)))
                (currentTaskIndex w)) as [Hle|Hlt].
    + rewrite processTask_finishes, stopTimer_returns by eauto.
      eexists; reflexivity.
    + destruct (task_at (Group.tasks g) (currentTaskIndex w)) as [t|] eqn:Ht.
      * rewrite (processTask_begins g t) by assumption.
        eexists; reflexivity.
      * exists []. rewrite app_nil_r.
        destruct w as [gs it ag idx ti ip st td rm iv nx tr].
        cbn [activeGroup currentTaskIndex] in *. subst ag.
        unfold processTask. mrun.
        destruct (Z.geb_spec idx (Z.of_nat (List.length (Group.tasks g))));
          [lia|].
        rewrite Ht. reflexivity.
Qed.

Lemma processTask_cases now w :
  processTask timeToMs now w = stopTimer true w \/
  (exists g t, activeGroup w = Obj g /\
               task_at (Group.tasks g) (currentTaskIndex w) = Some t) \/
  processTask timeToMs now w = Threw w.
Proof.
  destruct (activeGroup w) as [| |g] eqn:Hg.
  - left. apply processTask_finishes. left. rewrite Hg. reflexivity.
  - left. apply processTask_finishes. left. rewrite Hg. reflexivity.
  - destruct (Z.le_gt_cases (Z.of_nat (List.length (Group.tasks g)))
                (currentTaskIndex w)) as [Hle|Hlt].
    + left. apply processTask_finishes. eauto.
    + destruct (task_at (Group.tasks g) (currentTaskIndex w)) as [t|] eqn:Ht.
      * right. left. eauto.
      * right. right.
        destruct w as [gs it ag idx ti ip st td rm iv nx tr].
        cbn [activeGroup currentTaskIndex] in *. subst ag.
        unfold processTask. mrun.
        destruct (Z.geb_spec idx (Z.of_nat (List.length (Group.tasks g))));
          [lia|].
        rewrite Ht. reflexivity.
Qed.

Lemma timerTick_cases now nowSaved nowNext w :
  let r := Z.max 0 (taskDurationMs w - (now - startTime w)) in
  timerTick timeToMs now nowSaved nowNext w = Returned tt w \/
  (exists g, activeGroup w = Obj g /\ isPaused w = false /\ r <> 0) \/
  (exists g t, activeGroup w = Obj g /\ isPaused w = false /\ r = 0 /\
               task_at (Group.tasks g) (currentTaskIndex w) = Some t) \/
  (exists g, activeGroup w = Obj g /\ isPaused w = false /\
     timerTick timeToMs now nowSaved nowNext w
     = Threw
         (mkWorld (groups w) (Some (snapshot g w false 0 nowSaved)) (Obj g)
            (currentTaskIndex w) (timerInterval w) false (startTime w)
            (taskDurationMs w) 0
            (cancel (timerInterval w) (intervals w)) (nextInterval w)
            (trace w ++ [updateTimerTime 0 (taskDurationMs w);
                         saveTimerState_call (snapshot g w false 0 nowSaved);
                         clearInterval_call (timerInterval w)]))).
Proof.
  intros r.
  destruct (isPaused w) eqn:Hp.
  { left. apply timerTick_skips. left. assumption. }
  destruct (activeGroup w) as [| |g] eqn:Hg.
  { left. apply timerTick_skips. right. rewrite Hg. reflexivity. }
  { left. apply timerTick_skips. right. rewrite Hg. reflexivity. }
  destruct (Z.eq_dec r 0) as [Hr|Hr]; [|right; left; eauto].
  destruct (task_at (Group.tasks g) (currentTaskIndex w)) as [t|] eqn:Ht.
  { right. right. left. exists g, t. auto. }
  right. right. right. exists g. repeat split.
  destruct w as [gs it ag idx ti ip st td rm iv nx tr].
  cbn [isPaused activeGroup taskDurationMs startTime currentTaskIndex] in *.
  subst ag ip r. unfold timerTick, snapshot. mrun.
  rewrite Hr, Ht. cbn [Z.eqb]. mrun. rewrite <- !app_assoc. reflexivity.
Qed.

(** *** At most one interval is ever live *)

Lemma cancel_all w :
  one_interval w -> cancel (timerInterval w) (intervals w) = [].
Proof.
  unfold one_interval. intros H.
  destruct (timerInterval w) as [j|] eqn:Hj; simpl.
  - assert (Hall : forall i, In i (intervals w) -> i = j)
      by (intros i Hi; specialize (H i Hi); congruence).
    clear H. induction (intervals w) as [|a l IH]; [reflexivity|].
    simpl. destruct (Nat.eq_dec j a) as [_|Hne].
    + apply IH. intros i Hi. apply Hall. right. assumption.
    + exfalso. apply Hne. symmetry. apply Hall. left. reflexivity.
  - destruct (intervals w) as [|a l]; [reflexivity|].
    specialize (H a (or_introl eq_refl)). discriminate.
Qed.

Lemma one_interval_fresh gs it ag idx i ip st td rm nx tr :
  one_interval (mkWorld gs it ag idx (Some i) ip st td rm ([] ++ [i]) nx tr).
Proof.
  intros j [Hj|[]]. cbn. congruence.
Qed.

Lemma one_interval_none gs it ag idx ti ip st td rm nx tr :
  one_interval (mkWorld gs it ag idx ti ip st td rm [] nx tr).
Proof.
  intros j [].
Qed.

Lemma stopTimer_one_interval finished w :
  one_interval w -> one_interval (world_of (stopTimer finished w)).
Proof.
  intros H. rewrite stopTimer_returns. cbn [world_of].
  rewrite (cancel_all _ H). apply one_interval_none.
Qed.

Lemma processTask_one_interval now w :
  one_interval w -> one_interval (world_of (processTask timeToMs now w)).
Proof.
  intros H. destruct (processTask_cases now w) as [E | [(g & t & Hg & Ht) | E]].
  - rewrite E. apply stopTimer_one_interval, H.
  - rewrite (processTask_begins g t) by assumption. cbn [world_of].
    rewrite (cancel_all _ H). apply one_interval_fresh.
  - rewrite E. exact H.
Qed.

Lemma timerTick_one_interval now nowSaved nowNext w :
  one_interval w ->
  one_interval (world_of (timerTick timeToMs now nowSaved nowNext w)).
Proof.
  intros H.
  destruct (timerTick_cases now nowSaved nowNext w)
    as [E | [(g & Hg & Hp & Hr) | [(g & t & Hg & Hp & Hr & Ht) | (g & Hg & Hp & E)]]].
  - rewrite E. exact H.
  - rewrite (timerTick_counts g) by assumption. exact H.
  - rewrite (timerTick_ends g t) by assumption.
    apply processTask_one_interval. rewrite (cancel_all _ H).
    apply one_interval_none.
  - rewrite E. cbn [world_of]. rewrite (cancel_all _ H).
    apply one_interval_none.
Qed.

Lemma togglePause_one_interval now nowSaved w :
  one_interval w -> one_interval (world_of (togglePause now nowSaved w)).
Proof.
  intros H. pose proof (cancel_all _ H) as Hc.
  destruct w as [gs it ag idx ti ip st td rm iv nx tr].
  cbn [timerInterval intervals] in Hc.
  unfold togglePause. mrun.
  destruct ip; cbn [negb]; mrun; rewrite Hc; destruct ag; mrun;
    solve [apply one_interval_fresh | apply one_interval_none].
Qed.

Lemma skipTask_one_interval now w :
  one_interval w -> one_interval (world_of (skipTask timeToMs now w)).
Proof.
  intros H. pose proof (cancel_all _ H) as Hc.
  destruct w as [gs it ag idx ti ip st td rm iv nx tr].
  cbn [timerInterval intervals] in Hc.
  unfold skipTask. mrun. cbn [activeGroup].
  destruct (falsy ag); [exact H|]. rewrite Hc.
  apply processTask_one_interval, one_interval_none.
Qed.

Lemma startTimer_one_interval groupId now w :
  one_interval w ->
  one_interval (world_of (startTimer timeToMs groupId now w)).
Proof.
  intros H.
  destruct w as [gs it ag idx ti ip st td rm iv nx tr].
  unfold startTimer. mrun.
  destruct (getGroupById gs groupId) as [g|]; cbn [of_lookup]; [|exact H].
  destruct (List.length (Group.tasks g) =? 0)%nat; [exact H|].
  apply processTask_one_interval. exact H.
Qed.

Lemma recoverTimer_one_interval state now nowStart gs item :
  one_interval (world_of (recoverTimer state now nowStart (boot gs item))).
Proof.
  unfold recoverTimer, boot. mrun.
  destruct (getGroupById gs (groupId state)) as [g|]; cbn [of_lookup]; mrun;
    [|apply one_interval_none].
  destruct (task_at (Group.tasks g) (taskIndex state)); mrun;
    [|apply one_interval_none].
  destruct (paused state); cbn [negb]; mrun;
    [apply one_interval_none|apply one_interval_fresh].
Qed.

Lemma fire_one_interval r w :
  one_interval w -> one_interval (fire timeToMs r w).
Proof.
  intros H. unfold fire. destruct (intervals w); [exact H|].
  destruct r as [[a b] c]. apply timerTick_one_interval, H.
Qed.

Lemma reachable_one_interval w : reachable timeToMs w -> one_interval w.
Proof.
  induction 1.
  - apply one_interval_none.
  - apply recoverTimer_one_interval.
  - exact IHreachable.
  - apply startTimer_one_interval; assumption.
  - apply togglePause_one_interval; assumption.
  - apply skipTask_one_interval; assumption.
  - apply stopTimer_one_interval; assumption.
  - apply fire_one_interval; assumption.
Qed.

(** *** A routine from start to completion *)

Lemma task_at_of_nat ts k : task_at ts (Z.of_nat k) = nth_error ts k.
Proof.
  unfold task_at. destruct (Z.ltb_spec (Z.of_nat k) 0); [lia|].
  rewrite Nat2Z.id. reflexivity.
Qed.

Lemma visible_begin g i t :
  filter visible (begin_events g i t) = begin_events g i t.
Proof.
  unfold begin_events. destruct (notifies "start" t); reflexivity.
Qed.

Lemma visible_end t : filter visible (end_events t) = end_events t.
Proof.
  unfold end_events. destruct (notifies "end" t); reflexivity.
Qed.

Lemma events_from_app g l1 : forall i l2,
  events_from g i (l1 ++ l2)
  = events_from g i l1 ++ events_from g (i + Z.of_nat (List.length l1)) l2.
Proof.
  induction l1 as [|t l IH]; intros i l2.
  - cbn. rewrite Z.add_0_r. reflexivity.
  - cbn [app events_from List.length]. rewrite IH, <- app_assoc.
    do 3 f_equal. lia.
Qed.

Lemma firstn_succ (ts : list Task.t) k t :
  nth_error ts k = Some t -> firstn (S k) ts = firstn k ts ++ [t].
Proof.
  revert k. induction ts as [|a l IH]; intros [|k] H; try discriminate.
  - injection H as ->. reflexivity.
  - cbn in H. rewrite (firstn_cons (S k)), (firstn_cons k), (IH _ H).
    reflexivity.
Qed.

Lemma events_from_succ g ts k t :
  nth_error ts k = Some t ->
  events_from g 0 (firstn (S k) ts)
  = events_from g 0 (firstn k ts) ++ task_events g (Z.of_nat k) t.
Proof.
  intros H. rewrite (firstn_succ _ _ _ H), events_from_app.
  assert (Hk : (k < List.length ts)%nat)
    by (apply nth_error_Some; congruence).
  rewrite firstn_length_le by lia.
  cbn [events_from]. rewrite app_nil_r. reflexivity.
Qed.

Lemma fire_live r w :
  intervals w <> [] ->
  fire timeToMs r w
  = world_of (timerTick timeToMs (fst (fst r)) (snd (fst r)) (snd r) w).
Proof.
  unfold fire. destruct (intervals w); [congruence|].
  destruct r as [[a b] c]. reflexivity.
Qed.

(** A tick that finds time left changes nothing the user sees. *)
Lemma running_tick_counts g k t r w :
  running_at timeToMs g k t w ->
  Z.max 0 (taskDurationMs w - (fst (fst r) - startTime w)) <> 0 ->
  running_at timeToMs g k t (fire timeToMs r w) /\
  startTime (fire timeToMs r w) = startTime w /\
  exists es, trace (fire timeToMs r w) = trace w ++ es /\
             filter visible es = [].
Proof.
  intros (Hg & Hp & Hi & Ht & Hd & Hl) Hr.
  rewrite (fire_live _ _ Hl), (timerTick_counts g) by assumption.
  cbn [world_of]. unfold running_at.
  cbn [activeGroup isPaused currentTaskIndex taskDurationMs intervals
       startTime trace].
  repeat split; try assumption.
  eexists. split; reflexivity.
Qed.

(** The tick that finds no time left ends the task: the next one begins,
    or the routine is complete. *)
Lemma running_tick_ends g k t r w :
  running_at timeToMs g k t w ->
  Z.max 0 (taskDurationMs w - (fst (fst r) - startTime w)) = 0 ->
  let w' := fire timeToMs r w in
  (exists t', running_at timeToMs g (S k) t' w' /\
     startTime w' = snd r /\
     exists es, trace w' = trace w ++ es /\
       filter visible es
       = end_events t ++ begin_events g (Z.of_nat (S k)) t') \/
  (S k = List.length (Group.tasks g) /\ activeGroup w' = Null /\
   exists es, trace w' = trace w ++ es /\
     filter visible es = end_events t ++ [handleRoutineComplete true]).
Proof.
  intros (Hg & Hp & Hi & Ht & Hd & Hl) Hr w'. subst w'.
  assert (Hk : (k < List.length (Group.tasks g))%nat)
    by (apply nth_error_Some; congruence).
  rewrite (fire_live _ _ Hl), (timerTick_ends g t)
    by (try assumption; rewrite Hi, task_at_of_nat; assumption).
  rewrite Hi. replace (Z.of_nat k + 1) with (Z.of_nat (S k)) by lia.
  destruct (nth_error (Group.tasks g) (S k)) as [t'|] eqn:Ht'.
  - left. exists t'.
    rewrite (processTask_begins g t')
      by (cbn [activeGroup currentTaskIndex];
          first [reflexivity | rewrite task_at_of_nat; assumption]).
    cbn [world_of]. unfold running_at.
    cbn [activeGroup isPaused currentTaskIndex taskDurationMs intervals
         startTime trace nextInterval timerInterval].
    repeat split; try assumption; try reflexivity.
    + intros E. apply app_eq_nil in E as [_ E]. discriminate.
    + eexists. split; [rewrite <- !app_assoc; reflexivity|].
      rewrite !filter_app, visible_end, visible_begin.
      cbn [filter visible]. rewrite app_nil_r. reflexivity.
  - right. apply nth_error_None in Ht'.
    rewrite processTask_finishes, stopTimer_returns
      by (right; exists g; cbn [activeGroup currentTaskIndex];
          split; [reflexivity|lia]).
    cbn [world_of activeGroup trace]. repeat split; [lia|].
    eexists. split; [rewrite <- !app_assoc; reflexivity|].
    rewrite !filter_app, visible_end. reflexivity.
Qed.


(** A start on a group with tasks begins task 0. *)
Lemma startTimer_begins groupId g t0 now w :
  getGroupById (groups w) groupId = Some g ->
  nth_error (Group.tasks g) 0 = Some t0 ->
  let w1 := world_of (startTimer timeToMs groupId now w) in
  startTimer timeToMs groupId now w = Returned tt w1 /\
  running_at timeToMs g 0 t0 w1 /\ startTime w1 = now /\
  exists es, trace w1 = trace w ++ es /\
             filter visible es = begin_events g 0 t0.
Proof.
  intros Hg Ht. cbv zeta.
  destruct w as [gs it ag idx ti ip st td rm iv nx tr].
  cbn [groups] in Hg. unfold startTimer. mrun. rewrite Hg.
  cbn [of_lookup]. mrun.
  destruct (Group.tasks g) as [|t1 l] eqn:Hts; [discriminate|].
  cbn [List.length Nat.eqb]. mrun.
  rewrite (processTask_begins g t0)
    by (cbn [activeGroup currentTaskIndex];
        first [reflexivity | rewrite Hts; exact Ht]).
  cbn [world_of]. unfold running_at.
  cbn [activeGroup isPaused currentTaskIndex taskDurationMs intervals
       startTime trace nextInterval timerInterval].
  rewrite Hts. repeat split; try assumption; try reflexivity.
  - intros E. apply app_eq_nil in E as [_ E]. discriminate.
  - eexists. split; [rewrite <- !app_assoc; reflexivity|].
    cbn [app filter visible]. rewrite filter_app, visible_begin.
    cbn [filter visible]. apply app_nil_r.
Qed.

Lemma firstn_whole (ts : list Task.t) k :
  k = List.length ts -> firstn k ts = ts.
Proof. intros ->. apply firstn_all. Qed.

(** Firing keeps the shown events a faithful account of the routine. *)
Lemma fire_progress g before r w :
  progress timeToMs g before w ->
  progress timeToMs g before (fire timeToMs r w).
Proof.
  intros [k t es Hrun Htr Hvis | es Hnull Htr Hvis].
  - destruct (Z.eq_dec
                (Z.max 0 (taskDurationMs w - (fst (fst r) - startTime w))) 0)
      as [Hz|Hz].
    + pose proof (proj1 (proj2 (proj2 (proj2 Hrun)))) as Hnth.
      destruct (running_tick_ends g k t r w Hrun Hz)
        as [(t' & Hrun' & _ & es' & Htr' & Hvis')
           | (Hlast & Hnull & es' & Htr' & Hvis')].
      * apply (at_task timeToMs g before _ (S k) t' (es ++ es'));
          [assumption|rewrite Htr', Htr, app_assoc; reflexivity|].
        rewrite filter_app, Hvis, Hvis', (events_from_succ _ _ _ _ Hnth).
        unfold task_events. rewrite <- !app_assoc. reflexivity.
      * apply (completed timeToMs g before _ (es ++ es'));
          [assumption|rewrite Htr', Htr, app_assoc; reflexivity|].
        rewrite filter_app, Hvis, Hvis'. unfold routine_events.
        replace (events_from g 0 (Group.tasks g))
          with (events_from g 0 (firstn (S k) (Group.tasks g)))
          by (rewrite (firstn_whole _ _ Hlast); reflexivity).
        rewrite (events_from_succ _ _ _ _ Hnth). unfold task_events.
        rewrite <- !app_assoc. reflexivity.
    + destruct (running_tick_counts g k t r w Hrun Hz)
        as (Hrun' & _ & es' & Htr' & Hvis').
      apply (at_task timeToMs g before _ k t (es ++ es'));
        [assumption|rewrite Htr', Htr, app_assoc; reflexivity|].
      rewrite filter_app, Hvis, Hvis', app_nil_r. reflexivity.
  - assert (E : fire timeToMs r w = w).
    { unfold fire. destruct (intervals w); [reflexivity|].
      destruct r as [[a b] c].
      rewrite timerTick_skips by (right; rewrite Hnull; reflexivity).
      reflexivity. }
    rewrite E. apply (completed timeToMs g before _ es); assumption.
Qed.

Lemma fires_progress g before rs : forall w,
  progress timeToMs g before w ->
  progress timeToMs g before (fires timeToMs rs w).
Proof.
  induction rs as [|r rs IH]; intros w H; [exact H|].
  cbn [fires]. apply IH, fire_progress, H.
Qed.

(** With a punctual clock every firing ends a task, and the last one the
    routine. *)
Lemma punctual_completes g : forall rest k t w,
  running_at timeToMs g k t w ->
  skipn k (Group.tasks g) = t :: rest ->
  activeGroup (fires timeToMs (punctual timeToMs (startTime w) (t :: rest)) w)
  = Null.
Proof.
  induction rest as [|t2 rest IH]; intros k t w Hrun Hskip.
  - cbn [punctual fires].
    set (r := (startTime w + Z.max 0 (timeToMs (Task.duration t)),
               startTime w + Z.max 0 (timeToMs (Task.duration t)),
               startTime w + Z.max 0 (timeToMs (Task.duration t)))).
    assert (Hz : Z.max 0 (taskDurationMs w - (fst (fst r) - startTime w)) = 0).
    { destruct Hrun as (_ & _ & _ & _ & Hd & _). rewrite Hd. cbn. lia. }
    destruct (running_tick_ends g k t r w Hrun Hz)
      as [(t' & Hrun' & _) | (_ & Hnull & _)]; [|exact Hnull].
    exfalso. destruct Hrun' as (_ & _ & _ & Hnth & _).
    assert (Hlen : List.length (skipn k (Group.tasks g)) = 1%nat)
      by (rewrite Hskip; reflexivity).
    rewrite length_skipn in Hlen.
    assert ((S k < List.length (Group.tasks g))%nat)
      by (apply nth_error_Some; congruence).
    lia.
  - cbn [punctual fires].
    set (r := (startTime w + Z.max 0 (timeToMs (Task.duration t)),
               startTime w + Z.max 0 (timeToMs (Task.duration t)),
               startTime w + Z.max 0 (timeToMs (Task.duration t)))).
    assert (Hz : Z.max 0 (taskDurationMs w - (fst (fst r) - startTime w)) = 0).
    { destruct Hrun as (_ & _ & _ & _ & Hd & _). rewrite Hd. cbn. lia. }
    assert (Hnext : skipn (S k) (Group.tasks g) = t2 :: rest).
    { change (S k) with (1 + k)%nat. rewrite <- skipn_skipn, Hskip.
      reflexivity. }
    destruct (running_tick_ends g k t r w Hrun Hz)
      as [(t' & Hrun' & Hst & _) | (Hlast & _)].
    + assert (t' = t2).
      { destruct Hrun' as (_ & _ & _ & Hnth & _).
        rewrite <- (Nat.add_0_r (S k)), <- nth_error_skipn, Hnext in Hnth.
        cbn in Hnth. congruence. }
      subst t'. specialize (IH (S k) t2 _ Hrun' Hnext).
      rewrite Hst in IH. exact IH.
    + exfalso.
      assert (Hlen : List.length (skipn (S k) (Group.tasks g))
                     = S (List.length rest))
        by (rewrite Hnext; reflexivity).
      rewrite length_skipn in Hlen. lia.
Qed.

(** C3: a group with N tasks, 1 <= N <= 100, started with [startTimer]:
    whatever the clock readings of the firings, what has been shown is
    always a beginning of the routine's events, and once the routine has
    ended it is exactly those events: for the task indices 0..N-1 in
    order, once each, the task's display, its start notification when its
    policy is start or both and its end notification when its policy is
    end or both, the end notification of a task before the display and
    start notification of the next; and under a punctual clock N firings
    end the routine. *)
Theorem routine_shows_each_task_once groupId g now w :
  getGroupById (groups w) groupId = Some g ->
  (1 <= List.length (Group.tasks g) <= 100)%nat ->
  let w1 := world_of (startTimer timeToMs groupId now w) in
  (forall rs, exists es rest,
     trace (fires timeToMs rs w1) = trace w ++ es /\
     filter visible es ++ rest = routine_events g /\
     (activeGroup (fires timeToMs rs w1) = Null -> rest = [])) /\
  List.length (punctual timeToMs now (Group.tasks g))
  = List.length (Group.tasks g) /\
  activeGroup (fires timeToMs (punctual timeToMs now (Group.tasks g)) w1)
  = Null.
Proof.
  intros Hg [Hlen _]. cbv zeta.
  destruct (Group.tasks g) as [|t0 l] eqn:Hts; [cbn in Hlen; lia|].
  destruct (startTimer_begins groupId g t0 now w Hg)
    as (_ & Hrun & Hst & es0 & Htr0 & Hvis0); [rewrite Hts; reflexivity|].
  assert (Hprog : progress timeToMs g (trace w)
                    (world_of (startTimer timeToMs groupId now w))).
  { apply (at_task timeToMs g (trace w) _ 0%nat t0 es0); assumption. }
  split; [|split].
  - intros rs.
    destruct (fires_progress g (trace w) rs _ Hprog)
      as [k t es Hrun' Htr Hvis | es Hnull Htr Hvis].
    + destruct Hrun' as (Hag & _ & _ & Hnth & _).
      exists es,
        (end_events t
         ++ events_from g (Z.of_nat (S k)) (skipn (S k) (Group.tasks g))
         ++ [handleRoutineComplete true]).
      split; [exact Htr|]. split; [|rewrite Hag; discriminate].
      rewrite Hvis. unfold routine_events.
      replace (events_from g 0 (Group.tasks g))
        with (events_from g 0 (firstn (S k) (Group.tasks g)
                               ++ skipn (S k) (Group.tasks g)))
        by (rewrite firstn_skipn; reflexivity).
      rewrite events_from_app, (events_from_succ _ _ _ _ Hnth).
      assert (Hk : (k < List.length (Group.tasks g))%nat)
        by (apply nth_error_Some; congruence).
      rewrite firstn_length_le by lia. unfold task_events.
      rewrite <- !app_assoc. reflexivity.
    + exists es, []. rewrite app_nil_r. auto.
  - clear. generalize now. induction (t0 :: l) as [|a l' IH]; intros n;
      [reflexivity|]. cbn. rewrite IH. reflexivity.
  - pose proof (punctual_completes g l 0%nat t0 _ Hrun) as Hend.
    rewrite Hst, Hts in Hend. apply Hend. reflexivity.
Qed.

(** C1: while a task runs, a tick reports and saves
    [max 0 (taskDurationMs - (now - startTime))], whatever the remaining
    time was before, and keeps it when it is not 0; resuming sets
    [startTime] to [now - (taskDurationMs - remainingTimeMs)]; so pausing
    and resuming, after any delay and any firings in between, leaves
    [remainingTimeMs] as it was at the pause, and a later tick counts only
    the time since the resume. *)
Theorem remaining_time_is_recomputed g w :
  activeGroup w = Obj g ->
  (isPaused w = false ->
   forall now nowSaved nowNext,
     let r := Z.max 0 (taskDurationMs w - (now - startTime w)) in
     let w' := world_of (timerTick timeToMs now nowSaved nowNext w) in
     (exists rest,
        trace w'
        = trace w ++ updateTimerTime r (taskDurationMs w)
            :: saveTimerState_call (snapshot g w false r nowSaved) :: rest) /\
     (r <> 0 ->
      remainingTimeMs w' = r /\ startTime w' = startTime w /\
      taskDurationMs w' = taskDurationMs w)) /\
  (isPaused w = true ->
   forall now nowSaved,
     let w' := world_of (togglePause now nowSaved w) in
     togglePause now nowSaved w = Returned false w' /\
     startTime w' = now - (taskDurationMs w - remainingTimeMs w) /\
     remainingTimeMs w' = remainingTimeMs w) /\
  (isPaused w = false ->
   forall pauseAt pauseSaved rs resumeAt resumeSaved later,
     let wp := world_of (togglePause pauseAt pauseSaved w) in
     let wr :=
       world_of (togglePause resumeAt resumeSaved (fires timeToMs rs wp)) in
     isPaused wp = true /\ remainingTimeMs wp = remainingTimeMs w /\
     isPaused wr = false /\ remainingTimeMs wr = remainingTimeMs w /\
     Z.max 0 (taskDurationMs wr - (later - startTime wr))
     = Z.max 0 (remainingTimeMs w - (later - resumeAt))).
Proof.
  intros Hg. split; [|split].
  - intros Hp now nowSaved nowNext r w'.
    destruct (Z.eq_dec r 0) as [Hr|Hr].
    + split; [|intros; contradiction]. subst w'. rewrite Hr.
      destruct (task_at (Group.tasks g) (currentTaskIndex w)) as [t|] eqn:Ht.
      * rewrite (timerTick_ends g t) by assumption.
        match goal with
        | |- context [processTask timeToMs nowNext ?v] =>
            destruct (processTask_extends nowNext v) as [es Hes]
        end.
        rewrite Hes. cbn [trace]. rewrite <- !app_assoc.
        eexists. reflexivity.
      * destruct w as [gs it ag idx ti ip st td rm iv nx tr].
        cbn [isPaused activeGroup taskDurationMs startTime currentTaskIndex
             trace] in *. subst ag ip r.
        unfold timerTick, snapshot. mrun. rewrite Hr, Ht. cbn [Z.eqb]. mrun.
        rewrite <- !app_assoc. eexists. reflexivity.
    + subst w'. rewrite (timerTick_counts g) by assumption.
      cbn [world_of trace remainingTimeMs startTime taskDurationMs].
      split; [eexists; reflexivity|]. intros _. repeat split; reflexivity.
  - intros Hp now nowSaved w'. subst w'.
    rewrite (togglePause_resumes g) by assumption.
    repeat split; reflexivity.
  - intros Hp pauseAt pauseSaved rs resumeAt resumeSaved later wp wr.
    subst wr wp. rewrite (togglePause_pauses g) by assumption.
    cbn [world_of]. rewrite fires_skip by (left; reflexivity).
    rewrite (togglePause_resumes g) by reflexivity.
    cbn [world_of isPaused remainingTimeMs taskDurationMs startTime].
    repeat split; try reflexivity. f_equal. lia.
Qed.

(** A tick from which the engine comes out stopped has removed what it
    saved. *)
Lemma stopping_tick_leaves_nothing now nowSaved nowNext w :
  not_null (activeGroup w) = true ->
  activeGroup (world_of (timerTick timeToMs now nowSaved nowNext w)) = Null ->
  timerStateItem (world_of (timerTick timeToMs now nowSaved nowNext w)) = None.
Proof.
  intros Hnn.
  destruct (timerTick_cases now nowSaved nowNext w)
    as [E | [(g & Hg & Hp & Hr) | [(g & t & Hg & Hp & Hr & Ht)
                                  | (g & Hg & Hp & E)]]].
  - rewrite E. cbn [world_of]. intros E'. rewrite E' in Hnn. discriminate.
  - rewrite (timerTick_counts g) by assumption. discriminate.
  - rewrite (timerTick_ends g t) by assumption.
    match goal with
    | |- context [processTask timeToMs nowNext ?v] =>
        destruct (processTask_cases nowNext v)
          as [E | [(g' & t' & Hg' & Ht') | E]]
    end.
    + rewrite E, stopTimer_returns. reflexivity.
    + rewrite (processTask_begins g' t') by assumption. discriminate.
    + rewrite E. discriminate.
  - rewrite E. discriminate.
Qed.

(** C4: in every world, [stopTimer] first cancels the interval it holds,
    then releases the wake lock and removes the stored state; when it
    returns nothing is stored and no group is active, so whatever fires
    afterwards returns at once: it shows nothing, notifies nothing and
    saves nothing.  The tick that itself ends the routine saves before it
    stops, so it leaves nothing stored either.  In every world the page
    can reach the cancelled interval was the only one: none is live
    afterwards. *)
Theorem stopTimer_halts_polling finished w :
  let w' := world_of (stopTimer finished w) in
  stopTimer finished w = Returned tt w' /\
  (exists rest,
     trace w' = trace w ++ clearInterval_call (timerInterval w)
                  :: releaseWakeLock_call :: clearTimerState_call :: rest) /\
  intervals w' = cancel (timerInterval w) (intervals w) /\
  timerStateItem w' = None /\ activeGroup w' = Null /\
  (forall rs, fires timeToMs rs w' = w') /\
  (forall now nowSaved nowNext,
     timerTick timeToMs now nowSaved nowNext w' = Returned tt w') /\
  (forall now nowSaved nowNext,
     let wt := world_of (timerTick timeToMs now nowSaved nowNext w) in
     not_null (activeGroup w) = true -> activeGroup wt = Null ->
     timerStateItem wt = None) /\
  (reachable timeToMs w -> intervals w' = []).
Proof.
  cbv zeta. rewrite stopTimer_returns. cbn [world_of].
  split; [reflexivity|]. split; [unfold stop_calls; eexists; reflexivity|].
  split; [reflexivity|]. split; [reflexivity|]. split; [reflexivity|].
  split; [|split; [|split]].
  - intros rs. apply fires_skip. right. reflexivity.
  - intros. apply timerTick_skips. right. reflexivity.
  - intros now nowSaved nowNext. apply stopping_tick_leaves_nothing.
  - intros Hreach. apply reachable_one_interval in Hreach.
    cbn [intervals]. apply cancel_all, Hreach.
Qed.

(** The entry points other than [togglePause] return in every world whose
    task index is not negative. *)
Lemma other_entry_points_return gid state finished now nowStart w :
  threw (startTimer timeToMs gid now w) = false /\
  threw (stopTimer finished w) = false /\
  threw (recoverTimer state now nowStart w) = false /\
  (0 <= currentTaskIndex w -> threw (skipTask timeToMs now w) = false).
Proof.
  repeat split.
  - destruct (getGroupById (groups w) gid) as [g|] eqn:Hg.
    + destruct (Group.tasks g) as [|t0 l] eqn:Hts.
      * rewrite startTimer_refused by eauto. reflexivity.
      * destruct (startTimer_begins gid g t0 now w Hg) as (E & _);
          [rewrite Hts; reflexivity|].
        rewrite E. reflexivity.
    + rewrite startTimer_refused by auto. reflexivity.
  - rewrite stopTimer_returns. reflexivity.
  - destruct w as [gs it ag idx ti ip st td rm iv nx tr].
    unfold recoverTimer. mrun.
    destruct (getGroupById gs (groupId state)) as [g|]; cbn [of_lookup];
      mrun; [|reflexivity].
    destruct (task_at (Group.tasks g) (taskIndex state)); mrun;
      [|reflexivity].
    destruct (paused state); reflexivity.
  - intros Hi.
    destruct w as [gs it ag idx ti ip st td rm iv nx tr].
    cbn [currentTaskIndex] in Hi. unfold skipTask. mrun.
    destruct ag as [| |g]; cbn [falsy]; try reflexivity. mrun.
    match goal with
    | |- context [processTask timeToMs now ?v] =>
        destruct (processTask_cases now v) as [E | [(g' & t' & Hg' & Ht') | E]]
    end.
    + rewrite E, stopTimer_returns. reflexivity.
    + rewrite (processTask_begins g' t') by assumption. reflexivity.
    + exfalso. revert E. unfold processTask. mrun.
      destruct (Z.geb_spec (idx + 1) (Z.of_nat (List.length (Group.tasks g))));
        [rewrite stopTimer_returns; discriminate|].
      destruct (task_at_in_range (Group.tasks g) (idx + 1)) as [t Ht];
        [lia|].
      rewrite Ht. mrun.
      destruct (notifies "start" t); discriminate.
Qed.

End EngineFacts.

(* ================================================================== *)
(** ** The engine on the demo routine *)
(* ================================================================== *)

Section Demo.
Import Storage TimerEngine.
Local Open Scope list_scope.

(** The demo routine paused at 5 s and resumed at 99 s, a firing in
    between: the remaining time is the one at the pause. *)
Lemma remaining_time_is_recomputed_witness :
  activeGroup started = Obj demo /\ isPaused started = false /\
  remainingTimeMs
    (world_of
       (togglePause 99000 99000
          (fires timeToMsZ [(7000, 7000, 7000)]
             (world_of (togglePause 5000 5000 started)))))
  = remainingTimeMs started.
Proof.
  split; [reflexivity|]. split; [reflexivity|].
  destruct (remaining_time_is_recomputed timeToMsZ demo started eq_refl)
    as (_ & _ & Hpause).
  destruct (Hpause eq_refl 5000 5000 [(7000, 7000, 7000)] 99000 99000 99100)
    as (_ & _ & _ & Hsame & _).
  exact Hsame.
Defined.

(** The stored state of the spec's example, with T = 50000. *)
Lemma recoverTimer_deducts_time_away_witness :
  remainingTimeMs (world_of (recoverTimer stored_ok 54000 54000
                               (boot [demo] (Some stored_ok))))
  = 6000.
Proof.
  destruct (recoverTimer_deducts_time_away stored_ok demo
              (Task.mk "Work Set" "00:15:00" "start" "s") 54000 54000
              (boot [demo] (Some stored_ok)) eq_refl eq_refl eq_refl)
    as (_ & _ & _ & _ & _ & _ & _ & Hex).
  apply Hex; reflexivity.
Defined.

(** The demo routine, started at 1 s on the loaded page. *)
Lemma routine_shows_each_task_once_witness :
  activeGroup
    (fires timeToMsZ (punctual timeToMsZ 1000 (Group.tasks demo)) started)
  = Null.
Proof.
  assert (Hlen : (1 <= List.length (Group.tasks demo) <= 100)%nat)
    by (simpl; lia).
  destruct (routine_shows_each_task_once timeToMsZ "group-default" demo 1000
              loaded eq_refl Hlen) as (_ & _ & Hend).
  exact Hend.
Defined.

Lemma stopTimer_halts_polling_witness :
  intervals (world_of (stopTimer false started)) = [] /\
  timerStateItem (world_of (stopTimer false started)) = None.
Proof.
  assert (Hreach : reachable timeToMsZ started)
    by (unfold started, loaded; apply reach_start, reach_boot).
  destruct (stopTimer_halts_polling timeToMsZ false started)
    as (_ & _ & _ & Hitem & _ & _ & _ & _ & Hnone).
  split; [exact (Hnone Hreach) | exact Hitem].
Defined.





End Demo.

(* ================================================================== *)
(** ** More on the duration codec: printing and reading back *)
(* ================================================================== *)

Section CodecRoundTrip.
Import App.

Lemma digits_acc_printed d : forall acc : positive,
  digits_acc (Z.pos acc) (NilEmpty.string_of_uint d)
  = Some (Z.pos (Pos.of_uint_acc d acc)).
Proof.
  induction d; intros acc;
    cbn [NilEmpty.string_of_uint digits_acc Pos.of_uint_acc];
    [reflexivity | ..];
    match goal with
    | |- context [digit ?c] =>
        let v := eval vm_compute in (digit c) in change (digit c) with v
    end;
    cbv iota beta; rewrite <- IHd; f_equal; lia.
Qed.

Lemma digits_acc_printed_0 d :
  digits_acc 0 (NilEmpty.string_of_uint d) = Some (Z.of_N (Pos.of_uint d)).
Proof.
  induction d; cbn [NilEmpty.string_of_uint digits_acc Pos.of_uint];
    [reflexivity | ..];
    match goal with
    | |- context [digit ?c] =>
        let v := eval vm_compute in (digit c) in change (digit c) with v
    end;
    cbv iota beta; cbn [Z.mul Z.add Z.of_N];
    solve [exact IHd | apply digits_acc_printed].
Qed.

(** A non-negative integer reads back from its decimal print. *)
Lemma decimal_String_of n : 0 <= n -> decimal (String_of n) = Some n.
Proof.
  intros Hn. unfold String_of. destruct n as [|p|p]; [reflexivity| |lia].
  cbn [Z.to_int NilZero.string_of_int].
  pose proof (Unsigned.to_uint_nonnil p) as Hnil.
  pose proof (DecimalPos.Unsigned.of_to p) as Hp.
  pose proof (digits_acc_printed_0 (Pos.to_uint p)) as Hd.
  rewrite Hp in Hd. cbn [Z.of_N] in Hd.
  unfold NilZero.string_of_uint.
  destruct (Pos.to_uint p) eqn:E; [congruence | ..];
    cbn [NilEmpty.string_of_uint decimal] in *; exact Hd.
Qed.

Lemma decimal_pad2 n : 0 <= n -> decimal (pad2 n) = Some n.
Proof.
  intros Hn. unfold pad2.
  destruct (String.length (String_of n) <? 2)%nat;
    [|apply decimal_String_of, Hn].
  pose proof (decimal_String_of n Hn) as H.
  destruct (String_of n) as [|c r] eqn:E; [discriminate|].
  cbn [append decimal digits_acc] in *.
  change (digit "0") with (Some 0). exact H.
Qed.

Lemma msToTime_nonneg ms :
  0 <= ms <= 2 ^ 53 ->
  msToTime ms = Some (normalize_hms (round_div_1000 ms)).
Proof.
  intros H. unfold msToTime. rewrite exact_in_range by lia.
  cbn [App.bind].
  assert (0 <= round_div_1000 ms)
    by (unfold round_div_1000; apply Z.div_pos; lia).
  rewrite !Z.rem_mod_nonneg by lia. rewrite !padStart_pad2. reflexivity.
Qed.

(** X2: [msToTime] of a non-negative count prints the nearest whole second,
    a half rounding up, as hours, minutes below 60 and seconds below 60. *)
Theorem msToTime_rounds_to_nearest_second ms :
  0 <= ms <= 2 ^ 53 ->
  exists h m s,
    msToTime ms = Some (hms_text (pad2 h) (pad2 m) (pad2 s)) /\
    0 <= h /\ 0 <= m < 60 /\ 0 <= s < 60 /\
    1000 * total_seconds h m s - 500 <= ms < 1000 * total_seconds h m s + 500.
Proof.
  intros H. rewrite (msToTime_nonneg ms H).
  set (t := round_div_1000 ms).
  assert (Ht : 0 <= t) by (apply Z.div_pos; lia).
  exists (t / 3600), (t mod 3600 / 60), (t mod 60).
  split; [reflexivity|].
  pose proof (Z.mod_pos_bound t 3600 ltac:(lia)) as Hm.
  pose proof (Z.mod_pos_bound t 60 ltac:(lia)) as Hs.
  pose proof (Z.div_mod t 3600 ltac:(lia)) as E1.
  pose proof (Z.div_mod (t mod 3600) 60 ltac:(lia)) as E2.
  assert (E3 : (t mod 3600) mod 60 = t mod 60).
  { apply Z.mod_mod_divide. exists 60. reflexivity. }
  assert (Et : total_seconds (t / 3600) (t mod 3600 / 60) (t mod 60) = t)
    by (unfold total_seconds; lia).
  split; [apply Z.div_pos; lia|].
  split; [split; [apply Z.div_pos; lia | apply Z.div_lt_upper_bound; lia]|].
  split; [lia|]. rewrite Et.
  pose proof (Z.div_mod (ms + 500) 1000 ltac:(lia)) as E4.
  pose proof (Z.mod_pos_bound (ms + 500) 1000 ltac:(lia)) as Hr.
  unfold t, round_div_1000. lia.
Qed.

Lemma msToTime_rounds_to_nearest_second_witness :
  exists h m s,
    msToTime 3723500 = Some (hms_text (pad2 h) (pad2 m) (pad2 s)) /\
    0 <= h /\ 0 <= m < 60 /\ 0 <= s < 60 /\
    1000 * total_seconds h m s - 500 <= 3723500
    < 1000 * total_seconds h m s + 500.
Proof.
  apply (msToTime_rounds_to_nearest_second 3723500).
  split; [lia | vm_compute; discriminate].
Defined.

(** X3: What [msToTime] prints for a non-negative count, [timeToMs] reads back
    as that count rounded to the whole second. *)
Theorem timeToMs_msToTime_roundtrip ms :
  0 <= ms <= 2 ^ 53 - 500 ->
  App.bind (msToTime ms) timeToMs = Some (1000 * round_div_1000 ms).
Proof.
  intros H. rewrite (msToTime_nonneg ms) by lia. cbn [App.bind].
  set (t := round_div_1000 ms).
  assert (Ht : 0 <= t) by (apply Z.div_pos; lia).
  assert (Hb : t * 1000 <= 2 ^ 53).
  { pose proof (Z.div_mod (ms + 500) 1000 ltac:(lia)) as E4.
    pose proof (Z.mod_pos_bound (ms + 500) 1000 ltac:(lia)) as Hr.
    unfold t, round_div_1000. lia. }
  pose proof (Z.mod_pos_bound t 3600 ltac:(lia)) as Hm.
  pose proof (Z.mod_pos_bound t 60 ltac:(lia)) as Hs.
  pose proof (Z.div_mod t 3600 ltac:(lia)) as E1.
  pose proof (Z.div_mod (t mod 3600) 60 ltac:(lia)) as E2.
  assert (E3 : (t mod 3600) mod 60 = t mod 60).
  { apply Z.mod_mod_divide. exists 60. reflexivity. }
  assert (Hh : 0 <= t / 3600) by (apply Z.div_pos; lia).
  assert (Hmm : 0 <= t mod 3600 / 60) by (apply Z.div_pos; lia).
  unfold normalize_hms.
  change (pad2 (t / 3600) ++ ":" ++ pad2 (t mod 3600 / 60)
          ++ ":" ++ pad2 (t mod 60))%string
    with (join [pad2 (t / 3600); pad2 (t mod 3600 / 60); pad2 (t mod 60)]).
  rewrite (timeToMs_fields _ (t / 3600) (t mod 3600 / 60) (t mod 60)).
  - f_equal. lia.
  - discriminate.
  - cbn [forallb].
    rewrite (proj2 (decimal_facts _ _ (decimal_pad2 _ Hh))),
      (proj2 (decimal_facts _ _ (decimal_pad2 _ Hmm))),
      (proj2 (decimal_facts _ _ (decimal_pad2 (t mod 60) ltac:(lia)))).
    reflexivity.
  - apply field_numeric with (p := pad2 (t / 3600)); [reflexivity|].
    apply Number_decimal; [apply decimal_pad2, Hh|lia].
  - apply field_numeric with (p := pad2 (t mod 3600 / 60)); [reflexivity|].
    apply Number_decimal; [apply decimal_pad2, Hmm|lia].
  - apply field_numeric with (p := pad2 (t mod 60)); [reflexivity|].
    apply Number_decimal; [apply decimal_pad2; lia|lia].
  - lia.
Qed.

Lemma timeToMs_msToTime_roundtrip_witness :
  App.bind (msToTime 3723500) timeToMs = Some 3724000.
Proof.
  apply (timeToMs_msToTime_roundtrip 3723500).
  split; [lia | vm_compute; discriminate].
Defined.

(** X4: [timeToMs] reads the first three fields only: whatever follows a third
    colon is ignored. *)
Theorem timeToMs_ignores_further_fields hh mm ss more :
  forallb colon_free (hh :: mm :: ss :: more) = true ->
  timeToMs (join (hh :: mm :: ss :: more)) = timeToMs (join [hh; mm; ss]).
Proof.
  intros H. unfold timeToMs.
  rewrite (split_join (hh :: mm :: ss :: more)) by (discriminate || exact H).
  rewrite (split_join [hh; mm; ss]); [reflexivity|discriminate|].
  cbn [forallb] in *.
  apply andb_true_iff in H as [H1 H].
  apply andb_true_iff in H as [H2 H].
  apply andb_true_iff in H as [H3 _].
  rewrite H1, H2, H3. reflexivity.
Qed.

Lemma timeToMs_ignores_further_fields_witness :
  timeToMs "1:02:03:59:x" = timeToMs "1:02:03".
Proof.
  apply (timeToMs_ignores_further_fields "1" "02" "03" ["59"; "x"]).
  reflexivity.
Defined.

End CodecRoundTrip.

(* ================================================================== *)
(** ** js/storage.js : looking a group up *)
(* ================================================================== *)

Section Lookup.
Import Storage.
Local Open Scope list_scope.

Lemma getGroupById_first before g after groupId :
  Group.id g = groupId ->
  (forall h, In h before -> Group.id h <> groupId) ->
  getGroupById (before ++ g :: after) groupId = Some g.
Proof.
  intros Hg. unfold getGroupById.
  induction before as [|b l IH]; intros Hb; cbn [app find].
  - rewrite Hg, String.eqb_refl. reflexivity.
  - destruct (String.eqb_spec (Group.id b) groupId) as [E|_].
    + exfalso. apply (Hb b); [left; reflexivity|exact E].
    + apply IH. intros h Hh. apply Hb. right. exact Hh.
Qed.

(** X1: [getGroupById] answers with a group of the catalog that has the id
    asked for, the earliest such group when several share the id, and with
    [undefined] exactly when no group of the catalog has it. *)
Theorem getGroupById_finds_the_first_match gs groupId :
  (forall g, getGroupById gs groupId = Some g ->
             In g gs /\ Group.id g = groupId) /\
  (getGroupById gs groupId = None <->
   forall g, In g gs -> Group.id g <> groupId) /\
  (forall before g after,
     gs = before ++ g :: after -> Group.id g = groupId ->
     (forall h, In h before -> Group.id h <> groupId) ->
     getGroupById gs groupId = Some g).
Proof.
  split; [|split].
  - intros g H. apply find_some in H as [Hin Heq].
    split; [exact Hin|]. apply String.eqb_eq, Heq.
  - split.
    + intros H g Hin E. pose proof (find_none _ _ H g Hin) as Hf.
      cbn in Hf. rewrite E, String.eqb_refl in Hf. discriminate.
    + intros H. unfold getGroupById.
      destruct (find _ gs) as [g|] eqn:E; [|reflexivity].
      apply find_some in E as [Hin Heq]. apply String.eqb_eq in Heq.
      exfalso. exact (H g Hin Heq).
  - intros before g after -> Hg Hb. apply getGroupById_first; assumption.
Qed.

(** Of two groups stored under one id the lookup only ever sees the
    first. *)
Lemma getGroupById_finds_the_first_match_witness :
  getGroupById
    [TimerEngine.hollow; Group.mk "group-1" "Twin" None []; TimerEngine.demo]
    "group-1"
  = Some TimerEngine.hollow.
Proof.
  apply (proj2 (proj2 (getGroupById_finds_the_first_match
                         [TimerEngine.hollow; Group.mk "group-1" "Twin" None [];
                          TimerEngine.demo] "group-1"))
           [] TimerEngine.hollow
           [Group.mk "group-1" "Twin" None []; TimerEngine.demo]).
  - reflexivity.
  - reflexivity.
  - intros h [].
Defined.

End Lookup.

(* ================================================================== *)
(** ** More on the timer engine *)
(* ================================================================== *)

Section EngineMore.
Import Storage TimerEngine Timers.
Local Open Scope list_scope.

Variable timeToMs : string -> Z.

(** *** Closed forms of the remaining paths *)

Lemma recoverTimer_restores_paused state g t now nowStart w :
  paused state = true ->
  getGroupById (groups w) (groupId state) = Some g ->
  task_at (Group.tasks g) (taskIndex state) = Some t ->
  recoverTimer state now nowStart w
  = Returned true
      (mkWorld (groups w) (timerStateItem w) (Obj g) (taskIndex state)
         (timerInterval w) true (startTime w) (taskDuration state)
         (remaining state) (intervals w) (nextInterval w)
         (trace w ++ [requestWakeLock_call;
                      updateTimerDisplay t (Group.name g) (taskIndex state + 1);
                      updateTimerTime (remaining state) (taskDuration state)])).
Proof.
  intros Hp Hg Ht. destruct w as [gs it ag idx ti ip st td rm iv nx tr].
  cbn [groups] in Hg. unfold recoverTimer. mrun. rewrite Hg.
  cbn [of_lookup]. mrun. rewrite Ht. mrun. rewrite Hp. cbn [negb]. mrun.
  rewrite <- !app_assoc. reflexivity.
Qed.

Lemma recoverTimer_resumes state g t now nowStart w :
  paused state = false ->
  getGroupById (groups w) (groupId state) = Some g ->
  task_at (Group.tasks g) (taskIndex state) = Some t ->
  recoverTimer state now nowStart w
  = Returned true
      (mkWorld (groups w) (timerStateItem w) (Obj g) (taskIndex state)
         (Some (nextInterval w)) false
         (nowStart
          - (taskDuration state
             - Z.max 0 (remaining state - (now - lastTick state))))
         (taskDuration state)
         (Z.max 0 (remaining state - (now - lastTick state)))
         (intervals w ++ [nextInterval w]) (S (nextInterval w))
         (trace w ++ [requestWakeLock_call;
                      updateTimerDisplay t (Group.name g) (taskIndex state + 1);
                      updateTimerTime (remaining state) (taskDuration state);
                      setInterval_call (nextInterval w)])).
Proof.
  intros Hp Hg Ht. destruct w as [gs it ag idx ti ip st td rm iv nx tr].
  cbn [groups] in Hg. unfold recoverTimer. mrun. rewrite Hg.
  cbn [of_lookup]. mrun. rewrite Ht. mrun. rewrite Hp. cbn [negb]. mrun.
  rewrite <- !app_assoc. reflexivity.
Qed.

Lemma startTimer_starts groupId g t0 now w :
  getGroupById (groups w) groupId = Some g ->
  nth_error (Group.tasks g) 0 = Some t0 ->
  startTimer timeToMs groupId now w
  = Returned tt
      (mkWorld (groups w) (timerStateItem w) (Obj g) 0
         (Some (nextInterval w)) false now
         (timeToMs (Task.duration t0)) (timeToMs (Task.duration t0))
         (cancel (timerInterval w) (intervals w) ++ [nextInterval w])
         (S (nextInterval w))
         (trace w ++ requestWakeLock_call :: begin_events g 0 t0
                 ++ [clearInterval_call (timerInterval w);
                     setInterval_call (nextInterval w)])).
Proof.
  intros Hg Ht. destruct w as [gs it ag idx ti ip st td rm iv nx tr].
  cbn [groups] in Hg. unfold startTimer. mrun. rewrite Hg.
  cbn [of_lookup]. mrun.
  destruct (Group.tasks g) as [|t1 l] eqn:Hts; [discriminate|].
  cbn [List.length Nat.eqb]. mrun.
  rewrite (processTask_begins timeToMs g t0)
    by (cbn [activeGroup currentTaskIndex];
        first [reflexivity | rewrite Hts; exact Ht]).
  cbn [groups timerStateItem currentTaskIndex nextInterval timerInterval
       intervals trace].
  rewrite <- !app_assoc. reflexivity.
Qed.

Lemma skipTask_hands_on g now w :
  activeGroup w = Obj g ->
  skipTask timeToMs now w
  = processTask timeToMs now
      (mkWorld (groups w) (timerStateItem w) (Obj g) (currentTaskIndex w + 1)
         (timerInterval w) (isPaused w) (startTime w) (taskDurationMs w)
         (remainingTimeMs w) (cancel (timerInterval w) (intervals w))
         (nextInterval w)
         (trace w ++ [clearInterval_call (timerInterval w)])).
Proof.
  destruct w as [gs it ag idx ti ip st td rm iv nx tr].
  cbn [activeGroup]. intros ->. unfold skipTask. mrun. reflexivity.
Qed.

(** *** Skipping *)

(** X5: [skipTask] without an active group changes nothing.  With task [k] of
    the active group current, paused or not, it begins task [k + 1] at its
    full duration, running, without an end notification for the task left
    and without touching the stored state; from the last task it stops the
    routine as finished, and no task past the end is read. *)
Theorem skipTask_moves_to_the_next_task now w :
  (falsy (activeGroup w) = true -> skipTask timeToMs now w = Returned tt w) /\
  (forall g k t,
     activeGroup w = Obj g -> currentTaskIndex w = Z.of_nat k ->
     nth_error (Group.tasks g) k = Some t ->
     let w' := world_of (skipTask timeToMs now w) in
     skipTask timeToMs now w = Returned tt w' /\
     (forall t', nth_error (Group.tasks g) (S k) = Some t' ->
        session w' = (Obj g, Z.of_nat (S k), false) /\
        startTime w' = now /\
        remainingTimeMs w' = timeToMs (Task.duration t') /\
        taskDurationMs w' = timeToMs (Task.duration t') /\
        timerStateItem w' = timerStateItem w /\
        trace w'
        = trace w ++ clearInterval_call (timerInterval w)
            :: begin_events g (Z.of_nat (S k)) t'
            ++ [clearInterval_call (timerInterval w);
                setInterval_call (nextInterval w)]) /\
     (S k = List.length (Group.tasks g) ->
        session w' = (Null, 0, false) /\
        timerStateItem w' = None /\
        trace w'
        = trace w ++ [clearInterval_call (timerInterval w);
                      clearInterval_call (timerInterval w);
                      releaseWakeLock_call; clearTimerState_call;
                      handleRoutineComplete true])).
Proof.
  split.
  - intros Hf. destruct w as [gs it ag idx ti ip st td rm iv nx tr].
    cbn [activeGroup] in Hf. unfold skipTask. mrun. rewrite Hf. reflexivity.
  - intros g k t Hg Hi Ht. cbv zeta.
    assert (Hk : (k < List.length (Group.tasks g))%nat)
      by (apply nth_error_Some; congruence).
    rewrite (skipTask_hands_on g now w Hg), Hi.
    replace (Z.of_nat k + 1) with (Z.of_nat (S k)) by lia.
    destruct (nth_error (Group.tasks g) (S k)) as [t'|] eqn:Hn.
    + rewrite (processTask_begins timeToMs g t')
        by (cbn [activeGroup currentTaskIndex];
            first [reflexivity | rewrite task_at_of_nat; exact Hn]).
      cbn [world_of]. split; [reflexivity|]. split.
      * intros t2 E. injection E as <-.
        unfold session.
        cbn [activeGroup currentTaskIndex isPaused startTime remainingTimeMs
             taskDurationMs timerStateItem trace timerInterval nextInterval].
        repeat split; try reflexivity.
        rewrite <- !app_assoc. reflexivity.
      * intros Hlast.
        assert (Hlt : (S k < List.length (Group.tasks g))%nat)
          by (apply nth_error_Some; congruence).
        lia.
    + rewrite processTask_finishes, stopTimer_returns
        by (right; exists g; cbn [activeGroup currentTaskIndex];
            split; [reflexivity | apply nth_error_None in Hn; lia]).
      cbn [world_of]. split; [reflexivity|]. split; [discriminate|].
      intros _. unfold session, stop_calls.
      cbn [activeGroup currentTaskIndex isPaused timerStateItem trace
           timerInterval not_null].
      repeat split; try reflexivity.
      rewrite <- !app_assoc. reflexivity.
Qed.

(** *** Recovering what was saved *)

(** X6: A stored state that is paused, and whose group and task resolve, is
    restored as stored: same task, same duration, same remaining time,
    paused, with no interval started and the stored state kept; firings do
    nothing until [togglePause] resumes, and then only the time since the
    resume counts. *)
Theorem recoverTimer_restores_a_paused_task state g t now nowStart w :
  paused state = true ->
  getGroupById (groups w) (groupId state) = Some g ->
  task_at (Group.tasks g) (taskIndex state) = Some t ->
  let w' := world_of (recoverTimer state now nowStart w) in
  recoverTimer state now nowStart w = Returned true w' /\
  session w' = (Obj g, taskIndex state, true) /\
  remainingTimeMs w' = remaining state /\
  taskDurationMs w' = taskDuration state /\
  intervals w' = intervals w /\ timerInterval w' = timerInterval w /\
  timerStateItem w' = timerStateItem w /\
  (forall rs, fires timeToMs rs w' = w') /\
  (forall resumeAt resumeSaved later,
     let wr := world_of (togglePause resumeAt resumeSaved w') in
     isPaused wr = false /\ remainingTimeMs wr = remaining state /\
     Z.max 0 (taskDurationMs wr - (later - startTime wr))
     = Z.max 0 (remaining state - (later - resumeAt))).
Proof.
  intros Hp Hg Ht. cbv zeta.
  rewrite (recoverTimer_restores_paused state g t) by assumption.
  cbn [world_of]. do 7 (split; [reflexivity|]). split.
  - intros rs. apply fires_skip. left. reflexivity.
  - intros resumeAt resumeSaved later.
    rewrite (togglePause_resumes g) by reflexivity.
    cbn [world_of isPaused remainingTimeMs taskDurationMs startTime].
    repeat split. f_equal. lia.
Qed.

(** X7: What the engine saves, it recovers.  The state saved at a pause brings
    back, on a freshly loaded page whose catalog has the group, the same
    task paused with the same remaining time and no interval; the state
    saved by a tick with time left brings back the same task running, its
    remaining time less the time since that tick, floored at 0, and one
    interval. *)
Theorem saved_state_recovers g t gs now nowSaved nowNext bootNow bootStart w :
  activeGroup w = Obj g -> isPaused w = false ->
  task_at (Group.tasks g) (currentTaskIndex w) = Some t ->
  getGroupById gs (Group.id g) = Some g ->
  (let wp := world_of (togglePause now nowSaved w) in
   exists st,
     timerStateItem wp = Some st /\
     let wb := world_of (recoverTimer st bootNow bootStart
                           (boot gs (Some st))) in
     session wb = session wp /\
     remainingTimeMs wb = remainingTimeMs wp /\
     taskDurationMs wb = taskDurationMs wp /\
     intervals wb = []) /\
  (Z.max 0 (taskDurationMs w - (now - startTime w)) <> 0 ->
   let wt := world_of (timerTick timeToMs now nowSaved nowNext w) in
   exists st,
     timerStateItem wt = Some st /\
     let wb := world_of (recoverTimer st bootNow bootStart
                           (boot gs (Some st))) in
     session wb = session wt /\
     taskDurationMs wb = taskDurationMs wt /\
     remainingTimeMs wb
     = Z.max 0 (remainingTimeMs wt - (bootNow - nowSaved)) /\
     intervals wb = [1%nat]).
Proof.
  intros Hg Hp Ht Hcat. split.
  - cbv zeta. rewrite (togglePause_pauses g) by assumption.
    cbn [world_of timerStateItem]. eexists. split; [reflexivity|].
    rewrite (recoverTimer_restores_paused _ g t)
      by first [reflexivity | exact Hcat | exact Ht].
    cbn [world_of]. repeat split.
  - intros Hr. cbv zeta. rewrite (timerTick_counts timeToMs g) by assumption.
    cbn [world_of timerStateItem]. eexists. split; [reflexivity|].
    rewrite (recoverTimer_resumes _ g t)
      by first [reflexivity | exact Hcat | exact Ht].
    cbn [world_of]. repeat split.
Qed.

(** *** The interval table *)

Lemma tidy_cancel w :
  tidy w -> cancel (timerInterval w) (intervals w) = [].
Proof.
  intros [E | (i & E & Et & _)]; rewrite E.
  - destruct (timerInterval w); reflexivity.
  - rewrite Et. cbn. destruct (Nat.eq_dec i i); [reflexivity|congruence].
Qed.

Lemma tidy_none gs it ag idx ti ip st td rm nx tr :
  tidy (mkWorld gs it ag idx ti ip st td rm [] nx tr).
Proof. left. reflexivity. Qed.

Lemma tidy_fresh gs it ag idx i st td rm tr :
  tidy (mkWorld gs it ag idx (Some i) false st td rm ([] ++ [i]) (S i) tr).
Proof.
  right. exists i. cbn. repeat split. lia.
Qed.

Lemma tidy_same w w' :
  intervals w' = intervals w -> timerInterval w' = timerInterval w ->
  nextInterval w' = nextInterval w ->
  (intervals w <> [] -> isPaused w' = false) ->
  tidy w -> tidy w'.
Proof.
  intros Ei Et En Ep [E | (i & E & Hti & Hlt & _)].
  - left. congruence.
  - right. exists i. rewrite Ei, Et, En.
    repeat split; try assumption. apply Ep. rewrite E. discriminate.
Qed.

Lemma stopTimer_tidy finished w :
  tidy w -> tidy (world_of (stopTimer finished w)).
Proof.
  intros H. rewrite stopTimer_returns. cbn [world_of].
  rewrite (tidy_cancel _ H). apply tidy_none.
Qed.

Lemma processTask_tidy now w :
  tidy w -> tidy (world_of (processTask timeToMs now w)).
Proof.
  intros H.
  destruct (processTask_cases timeToMs now w)
    as [E | [(g & t & Hg & Ht) | E]].
  - rewrite E. apply stopTimer_tidy, H.
  - rewrite (processTask_begins timeToMs g t) by assumption.
    cbn [world_of]. rewrite (tidy_cancel _ H). apply tidy_fresh.
  - rewrite E. exact H.
Qed.

Lemma timerTick_tidy now nowSaved nowNext w :
  tidy w -> tidy (world_of (timerTick timeToMs now nowSaved nowNext w)).
Proof.
  intros H.
  destruct (timerTick_cases timeToMs now nowSaved nowNext w)
    as [E | [(g & Hg & Hp & Hr) | [(g & t & Hg & Hp & Hr & Ht)
                                  | (g & Hg & Hp & E)]]].
  - rewrite E. exact H.
  - rewrite (timerTick_counts timeToMs g) by assumption.
    apply (tidy_same w); try reflexivity; exact H.
  - rewrite (timerTick_ends timeToMs g t) by assumption.
    apply processTask_tidy. rewrite (tidy_cancel _ H). apply tidy_none.
  - rewrite E. cbn [world_of]. rewrite (tidy_cancel _ H). apply tidy_none.
Qed.

Lemma togglePause_tidy now nowSaved w :
  tidy w -> tidy (world_of (togglePause now nowSaved w)).
Proof.
  intros H. pose proof (tidy_cancel _ H) as Hc.
  destruct w as [gs it ag idx ti ip st td rm iv nx tr].
  cbn [timerInterval intervals] in Hc.
  unfold togglePause. mrun.
  destruct ip; cbn [negb]; mrun; rewrite Hc; destruct ag; mrun;
    solve [apply tidy_fresh | apply tidy_none].
Qed.

Lemma skipTask_tidy now w :
  tidy w -> tidy (world_of (skipTask timeToMs now w)).
Proof.
  intros H. pose proof (tidy_cancel _ H) as Hc.
  destruct w as [gs it ag idx ti ip st td rm iv nx tr].
  cbn [timerInterval intervals] in Hc.
  unfold skipTask. mrun. cbn [activeGroup].
  destruct (falsy ag); [exact H|]. rewrite Hc.
  apply processTask_tidy, tidy_none.
Qed.

Lemma startTimer_tidy groupId now w :
  tidy w -> tidy (world_of (startTimer timeToMs groupId now w)).
Proof.
  intros H.
  destruct (getGroupById (groups w) groupId) as [g|] eqn:Hg.
  - destruct (nth_error (Group.tasks g) 0) as [t0|] eqn:Ht.
    + rewrite (startTimer_starts groupId g t0) by assumption.
      cbn [world_of]. rewrite (tidy_cancel _ H). apply tidy_fresh.
    + assert (Hts : Group.tasks g = [])
        by (destruct (Group.tasks g); [reflexivity|discriminate]).
      rewrite startTimer_refused by eauto.
      apply (tidy_same w); try reflexivity; exact H.
  - rewrite startTimer_refused by auto.
    apply (tidy_same w); try reflexivity; exact H.
Qed.

Lemma recoverTimer_tidy state now nowStart gs item :
  tidy (world_of (recoverTimer state now nowStart (boot gs item))).
Proof.
  unfold recoverTimer, boot. mrun.
  destruct (getGroupById gs (groupId state)) as [g|]; cbn [of_lookup]; mrun;
    [|apply tidy_none].
  destruct (task_at (Group.tasks g) (taskIndex state)); mrun;
    [|apply tidy_none].
  destruct (paused state); cbn [negb]; mrun;
    [apply tidy_none|apply tidy_fresh].
Qed.

Lemma fire_tidy r w : tidy w -> tidy (fire timeToMs r w).
Proof.
  intros H. unfold fire. destruct (intervals w); [exact H|].
  destruct r as [[a b] c]. apply timerTick_tidy, H.
Qed.

Lemma reachable_tidy w : reachable timeToMs w -> tidy w.
Proof.
  induction 1.
  - apply tidy_none.
  - apply recoverTimer_tidy.
  - apply (tidy_same w); try reflexivity; [|assumption].
    intros Hne. destruct IHreachable as [E | (i & _ & _ & _ & Hp)];
      [contradiction|exact Hp].
  - apply startTimer_tidy; assumption.
  - apply togglePause_tidy; assumption.
  - apply skipTask_tidy; assumption.
  - apply stopTimer_tidy; assumption.
  - apply fire_tidy; assumption.
Qed.

(** X8: On the page at most one interval is ever live: it is the one
    [timerInterval] holds, its id was issued before [nextInterval], and
    none is live while the engine is paused. *)
Theorem at_most_one_interval_is_live w :
  reachable timeToMs w ->
  (List.length (intervals w) <= 1)%nat /\
  (forall i, In i (intervals w) ->
             timerInterval w = Some i /\ (i < nextInterval w)%nat) /\
  (isPaused w = true -> intervals w = []).
Proof.
  intros H. apply reachable_tidy in H.
  destruct H as [E | (i & E & Hti & Hlt & Hp)]; rewrite E.
  - cbn. repeat split; try lia; intros i [].
  - cbn. split; [lia|]. split.
    + intros j [<-|[]]. split; assumption.
    + rewrite Hp. discriminate.
Qed.

(** X9: [recoverTimer] sets an interval without cancelling the one it holds.
    Called on a page that is already polling, it leaves two intervals
    live; [stopTimer] then cancels only the new one, so the old one keeps
    firing, and the next [startTimer] polls twice over. *)
Theorem recoverTimer_while_polling_leaks state g t now nowStart finished w :
  reachable timeToMs w -> intervals w <> [] ->
  paused state = false ->
  getGroupById (groups w) (groupId state) = Some g ->
  task_at (Group.tasks g) (taskIndex state) = Some t ->
  let w1 := world_of (recoverTimer state now nowStart w) in
  let w2 := world_of (stopTimer finished w1) in
  intervals w1 = intervals w ++ [nextInterval w] /\
  List.length (intervals w1) = 2%nat /\
  intervals w2 = intervals w /\ activeGroup w2 = Null /\
  (forall groupId g2 t0 startNow,
     getGroupById (groups w) groupId = Some g2 ->
     nth_error (Group.tasks g2) 0 = Some t0 ->
     List.length
       (intervals (world_of (startTimer timeToMs groupId startNow w2)))
     = 2%nat).
Proof.
  intros Hreach Hlive Hp Hg Ht. cbv zeta.
  apply reachable_tidy in Hreach.
  destruct Hreach as [E | (i & E & Hti & Hlt & _)]; [contradiction|].
  rewrite (recoverTimer_resumes state g t) by assumption.
  cbn [world_of intervals]. rewrite stopTimer_returns.
  cbn [world_of intervals timerInterval activeGroup]. rewrite E.
  assert (Hrm : cancel (Some (nextInterval w)) ([i] ++ [nextInterval w]) = [i]).
  { cbn. destruct (Nat.eq_dec (nextInterval w) i) as [Ei|_]; [lia|].
    destruct (Nat.eq_dec (nextInterval w) (nextInterval w)); [reflexivity|].
    congruence. }
  rewrite Hrm. do 4 (split; [reflexivity|]).
  intros groupId g2 t0 startNow Hg2 Ht0.
  rewrite (startTimer_starts groupId g2 t0) by assumption.
  cbn [world_of intervals timerInterval nextInterval].
  cbn. destruct (Nat.eq_dec (nextInterval w) i) as [Ei|_]; [lia|].
  reflexivity.
Qed.

(** *** From one task to the next *)

(** X10: The tick that ends a task begins the next one afresh: it runs from the
    reading [processTask] makes with its whole duration remaining, however
    late the tick came; the stored state still names the ended task with
    nothing remaining until the next tick saves. *)
Theorem ending_tick_begins_the_next_task_afresh g k t t' r w :
  running_at timeToMs g k t w ->
  nth_error (Group.tasks g) (S k) = Some t' ->
  Z.max 0 (taskDurationMs w - (fst (fst r) - startTime w)) = 0 ->
  let w' := fire timeToMs r w in
  session w' = (Obj g, Z.of_nat (S k), false) /\
  startTime w' = snd r /\
  taskDurationMs w' = timeToMs (Task.duration t') /\
  remainingTimeMs w' = timeToMs (Task.duration t') /\
  timerStateItem w' = Some (snapshot g w false 0 (snd (fst r))) /\
  intervals w'
  = cancel (timerInterval w) (intervals w) ++ [nextInterval w].
Proof.
  intros (Hg & Hp & Hi & Ht & Hd & Hl) Hn Hr. cbv zeta.
  rewrite (fire_live timeToMs _ _ Hl), (timerTick_ends timeToMs g t)
    by (try assumption; rewrite Hi, task_at_of_nat; assumption).
  rewrite (processTask_begins timeToMs g t')
    by (cbn [activeGroup currentTaskIndex];
        first [reflexivity
              | rewrite Hi;
                replace (Z.of_nat k + 1) with (Z.of_nat (S k)) by lia;
                rewrite task_at_of_nat; exact Hn]).
  cbn [world_of]. unfold session.
  cbn [activeGroup currentTaskIndex isPaused startTime taskDurationMs
       remainingTimeMs timerStateItem intervals timerInterval nextInterval].
  rewrite Hi, cancel_twice.
  repeat split; try reflexivity. f_equal. f_equal. lia.
Qed.

(** X11: [startTimer] on a page where a routine is running or paused replaces
    it: task 0 of the new group runs at its full duration on the one live
    interval, the routine left gets neither an end notification nor a
    routine-ended call, and what was stored stays until the first tick. *)
Theorem startTimer_replaces_the_routine groupId g t0 now w :
  reachable timeToMs w ->
  getGroupById (groups w) groupId = Some g ->
  nth_error (Group.tasks g) 0 = Some t0 ->
  let w' := world_of (startTimer timeToMs groupId now w) in
  session w' = (Obj g, 0, false) /\
  startTime w' = now /\
  remainingTimeMs w' = timeToMs (Task.duration t0) /\
  intervals w' = [nextInterval w] /\
  timerInterval w' = Some (nextInterval w) /\
  timerStateItem w' = timerStateItem w /\
  trace w'
  = trace w ++ requestWakeLock_call :: begin_events g 0 t0
      ++ [clearInterval_call (timerInterval w);
          setInterval_call (nextInterval w)].
Proof.
  intros Hreach Hg Ht. cbv zeta. apply reachable_tidy in Hreach.
  rewrite (startTimer_starts groupId g t0) by assumption.
  cbn [world_of]. unfold session.
  cbn [activeGroup currentTaskIndex isPaused startTime remainingTimeMs
       intervals timerInterval timerStateItem trace].
  rewrite (tidy_cancel _ Hreach). repeat split.
Qed.

(** *** The end of a routine *)

Lemma finishing_fire g r w :
  tidy w -> activeGroup w = Obj g ->
  activeGroup (fire timeToMs r w) = Null ->
  session (fire timeToMs r w) = (Null, 0, false) /\
  timerStateItem (fire timeToMs r w) = None /\
  intervals (fire timeToMs r w) = [].
Proof.
  intros Htidy Hg. unfold fire.
  destruct (intervals w) as [|i l] eqn:Hiv; [rewrite Hg; discriminate|].
  destruct r as [[now nowSaved] nowNext].
  destruct (timerTick_cases timeToMs now nowSaved nowNext w)
    as [E | [(g1 & Hg1 & Hp & Hr) | [(g1 & t & Hg1 & Hp & Hr & Ht)
                                    | (g1 & Hg1 & Hp & E)]]].
  - rewrite E. cbn [world_of]. rewrite Hg. discriminate.
  - rewrite (timerTick_counts timeToMs g1) by assumption. discriminate.
  - rewrite (timerTick_ends timeToMs g1 t) by assumption.
    match goal with
    | |- context [processTask timeToMs nowNext ?v] =>
        destruct (processTask_cases timeToMs nowNext v)
          as [E | [(g' & t' & Hg' & Ht') | E]]
    end.
    + rewrite E, stopTimer_returns. cbn [world_of]. intros _.
      unfold session.
      cbn [activeGroup currentTaskIndex isPaused timerStateItem intervals
           timerInterval].
      rewrite cancel_twice, (tidy_cancel _ Htidy). repeat split.
    + rewrite (processTask_begins timeToMs g' t') by assumption.
      discriminate.
    + rewrite E. discriminate.
  - rewrite E. discriminate.
Qed.

Lemma finishing_fires rs : forall g w,
  tidy w -> activeGroup w = Obj g ->
  activeGroup (fires timeToMs rs w) = Null ->
  session (fires timeToMs rs w) = (Null, 0, false) /\
  timerStateItem (fires timeToMs rs w) = None /\
  intervals (fires timeToMs rs w) = [].
Proof.
  induction rs as [|r rs IH]; intros g w Htidy Hg Hend.
  - cbn in Hend. rewrite Hg in Hend. discriminate.
  - cbn [fires] in *.
    destruct (activeGroup (fire timeToMs r w)) as [| |g'] eqn:Hn.
    + rewrite fires_skip in * by (right; rewrite Hn; reflexivity).
      apply (finishing_fire g); assumption.
    + rewrite fires_skip in Hend by (right; rewrite Hn; reflexivity).
      rewrite Hn in Hend. discriminate.
    + apply (IH g'); [apply fire_tidy, Htidy | exact Hn | exact Hend].
Qed.

(** X12: A routine that firings bring to its end leaves the engine as it was
    loaded: no active group, index 0, not paused, nothing stored and no
    interval live. *)
Theorem finished_routine_leaves_the_engine_idle g rs w :
  reachable timeToMs w -> activeGroup w = Obj g ->
  activeGroup (fires timeToMs rs w) = Null ->
  session (fires timeToMs rs w) = (Null, 0, false) /\
  timerStateItem (fires timeToMs rs w) = None /\
  intervals (fires timeToMs rs w) = [] /\
  Idle (fires timeToMs rs w).
Proof.
  intros Hreach Hg Hend. apply reachable_tidy in Hreach.
  destruct (finishing_fires rs g w Hreach Hg Hend) as (Hs & Hitem & Hiv).
  repeat split; try assumption. rewrite Hend. reflexivity.
Qed.

End EngineMore.

(* ================================================================== *)
(** ** The further facts on the demo routine *)
(* ================================================================== *)

Section DemoMore.
Import Storage TimerEngine Timers.
Local Open Scope list_scope.

Lemma started_is_reachable : reachable timeToMsZ started.
Proof. unfold started, loaded. apply reach_start, reach_boot. Qed.

(** Skipping the warm-up begins the work set, with its start notification
    and no end notification for the warm-up. *)
Lemma skipTask_moves_to_the_next_task_witness :
  session (world_of (skipTask timeToMsZ 2000 started)) = (Obj demo, 1, false)
  /\ remainingTimeMs (world_of (skipTask timeToMsZ 2000 started)) = 900000.
Proof.
  destruct (skipTask_moves_to_the_next_task timeToMsZ 2000 started)
    as (_ & Hskip).
  destruct (Hskip demo 0%nat (Task.mk "Warm-up" "00:03:00" "end" "w")
              eq_refl eq_refl eq_refl) as (_ & Hnext & _).
  destruct (Hnext (Task.mk "Work Set" "00:15:00" "start" "s") eq_refl)
    as (Hs & _ & Hr & _).
  split; [exact Hs | exact Hr].
Defined.

Lemma recoverTimer_restores_a_paused_task_witness :
  session (world_of (recoverTimer stored_paused 54000 54000
                       (boot [demo] (Some stored_paused))))
  = (Obj demo, 1, true) /\
  remainingTimeMs (world_of (recoverTimer stored_paused 54000 54000
                               (boot [demo] (Some stored_paused))))
  = 10000.
Proof.
  destruct (recoverTimer_restores_a_paused_task timeToMsZ stored_paused demo
              (Task.mk "Work Set" "00:15:00" "start" "s") 54000 54000
              (boot [demo] (Some stored_paused)) eq_refl eq_refl eq_refl)
    as (_ & Hs & Hr & _).
  split; [exact Hs | exact Hr].
Defined.

(** The warm-up ticked at 61 s, saved, and recovered 4 s later. *)
Lemma saved_state_recovers_witness :
  exists st,
    timerStateItem (world_of (timerTick timeToMsZ 61000 61000 61000 started))
    = Some st /\
    remainingTimeMs
      (world_of (recoverTimer st 65000 65000 (boot [demo; hollow] (Some st))))
    = 116000.
Proof.
  destruct (saved_state_recovers timeToMsZ demo
              (Task.mk "Warm-up" "00:03:00" "end" "w") [demo; hollow]
              61000 61000 61000 65000 65000 started
              eq_refl eq_refl eq_refl eq_refl) as (_ & Htick).
  assert (Hleft : Z.max 0 (taskDurationMs started - (61000 - startTime started))
                  <> 0) by (vm_compute; discriminate).
  destruct (Htick Hleft) as (st & Hst & _ & _ & Hrem & _).
  exists st. split; [exact Hst|].
  rewrite Hrem. reflexivity.
Defined.

Lemma at_most_one_interval_is_live_witness :
  (List.length (intervals started) <= 1)%nat.
Proof.
  destruct (at_most_one_interval_is_live timeToMsZ started
              started_is_reachable) as (Hlen & _).
  exact Hlen.
Defined.

Lemma recoverTimer_while_polling_leaks_witness :
  intervals (world_of (stopTimer false
                         (world_of (recoverTimer stored_ok 54000 54000
                                      started))))
  = intervals started.
Proof.
  assert (Hlive : intervals started <> []) by (vm_compute; discriminate).
  destruct (recoverTimer_while_polling_leaks timeToMsZ stored_ok demo
              (Task.mk "Work Set" "00:15:00" "start" "s") 54000 54000 false
              started started_is_reachable Hlive eq_refl eq_refl eq_refl)
    as (_ & _ & Hkept & _).
  exact Hkept.
Defined.

(** A tick that comes a quarter of an hour late still gives the work set
    its full fifteen minutes. *)
Lemma ending_tick_begins_the_next_task_afresh_witness :
  remainingTimeMs (fire timeToMsZ (1081000, 1081000, 1081002) started)
  = 900000 /\
  startTime (fire timeToMsZ (1081000, 1081000, 1081002) started) = 1081002.
Proof.
  assert (Hrun : running_at timeToMsZ demo 0
                   (Task.mk "Warm-up" "00:03:00" "end" "w") started).
  { unfold running_at. repeat split; try reflexivity.
    vm_compute. discriminate. }
  destruct (ending_tick_begins_the_next_task_afresh timeToMsZ demo 0%nat
              (Task.mk "Warm-up" "00:03:00" "end" "w")
              (Task.mk "Work Set" "00:15:00" "start" "s")
              (1081000, 1081000, 1081002) started Hrun eq_refl eq_refl)
    as (_ & Hst & _ & Hrem & _).
  split; [exact Hrem | exact Hst].
Defined.

Lemma startTimer_replaces_the_routine_witness :
  session (world_of (startTimer timeToMsZ "group-2" 5000 started_two))
  = (Obj stretch, 0, false) /\
  intervals (world_of (startTimer timeToMsZ "group-2" 5000 started_two))
  = [nextInterval started_two].
Proof.
  assert (Hreach : reachable timeToMsZ started_two)
    by (unfold started_two, loaded_two; apply reach_start, reach_boot).
  destruct (startTimer_replaces_the_routine timeToMsZ "group-2" stretch
              (Task.mk "Hold" "00:00:30" "both" "h") 5000 started_two
              Hreach eq_refl eq_refl) as (Hs & _ & _ & Hiv & _).
  split; [exact Hs | exact Hiv].
Defined.

Lemma finished_routine_leaves_the_engine_idle_witness :
  Idle (fires timeToMsZ (punctual timeToMsZ 1000 (Group.tasks demo)) started).
Proof.
  destruct (finished_routine_leaves_the_engine_idle timeToMsZ demo
              (punctual timeToMsZ 1000 (Group.tasks demo)) started
              started_is_reachable eq_refl eq_refl)
    as (_ & _ & _ & Hidle).
  exact Hidle.
Defined.

End DemoMore.

(* ================================================================== *)
(** ** Saving and copying groups *)
(* ================================================================== *)

Section BuilderFacts.
Import Storage TimerEngine Builder.
Local Open Scope list_scope.

Variable trim : string -> string.
Variable timeToMs : string -> Z.

Lemma is_empty_false s : is_empty s = false -> s <> EmptyString.
Proof. destruct s; [discriminate|]. intros _. discriminate. Qed.

Lemma collect_accepted rs : forall ts,
  collect trim rs = Tasks ts -> Forall accepted ts.
Proof.
  induction rs as [|r rest IH]; intros ts H; cbn [collect] in H.
  - injection H as <-. constructor.
  - destruct (is_empty (trim (row_name r))) eqn:En; cbn [orb] in H;
      [apply IH, H|].
    destruct (is_empty (trim (row_duration r))) eqn:Ed; [apply IH, H|].
    destruct (App.timeToMs (trim (row_duration r))) as [ms|] eqn:Ems;
      [|discriminate].
    destruct (Z.leb_spec ms 0) as [Hle|Hpos]; [discriminate|].
    destruct (collect trim rest) as [ts'| |]; try discriminate.
    injection H as <-. constructor; [|apply IH; reflexivity].
    split; [apply is_empty_false, En|]. exists ms. cbn. auto.
Qed.

Lemma replace_first_In gid f gs g :
  In g (replace_first gid f gs) ->
  In g gs \/ exists old, In old gs /\ Group.id old = gid /\ g = f old.
Proof.
  induction gs as [|a l IH]; [intros []|]. cbn [replace_first].
  destruct (String.eqb_spec (Group.id a) gid) as [E|_].
  - intros [<-|H]; [right; exists a; cbn; auto|left; right; exact H].
  - intros [<-|H]; [left; left; reflexivity|].
    destruct (IH H) as [Hin | (old & Hin & Hid & Hg)];
      [left; right; exact Hin|].
    right. exists old. cbn. auto.
Qed.

Lemma replace_first_ids gid f gs :
  (forall g, Group.id (f g) = Group.id g) ->
  map Group.id (replace_first gid f gs) = map Group.id gs.
Proof.
  intros Hf. induction gs as [|a l IH]; [reflexivity|].
  cbn [replace_first]. destruct (String.eqb (Group.id a) gid); cbn [map].
  - rewrite Hf. reflexivity.
  - rewrite IH. reflexivity.
Qed.

Lemma saveGroupHandler_new_groups f now p p' :
  saveGroupHandler trim f now p = Some p' ->
  forall g, In g (groups (engine p')) ->
    In g (groups (engine p)) \/
    (Group.name g = trim (name_value f) /\ Group.name g <> EmptyString /\
     Group.tasks g <> [] /\ Forall accepted (Group.tasks g)).
Proof.
  unfold saveGroupHandler. intros H g Hin.
  destruct (is_empty (trim (name_value f))) eqn:En.
  { injection H as <-. left. exact Hin. }
  destruct (collect trim (rows f)) as [ts| |] eqn:Ec; [|
    injection H as <-; left; exact Hin | discriminate].
  pose proof (collect_accepted _ _ Ec) as Hacc.
  destruct ts as [|t ts]; [injection H as <-; left; exact Hin|].
  assert (Hnew : forall i,
            Group.name (Group.mk i (trim (name_value f))
                          (Some (color_value f)) (t :: ts))
            = trim (name_value f) /\
            Group.name (Group.mk i (trim (name_value f))
                          (Some (color_value f)) (t :: ts)) <> EmptyString /\
            Group.tasks (Group.mk i (trim (name_value f))
                           (Some (color_value f)) (t :: ts)) <> [] /\
            Forall accepted
              (Group.tasks (Group.mk i (trim (name_value f))
                              (Some (color_value f)) (t :: ts)))).
  { intros i. cbn. repeat split; try assumption;
      [apply is_empty_false, En | discriminate]. }
  destruct (is_empty (id_value f)); cbn [negb] in H.
  - destruct (50 <=? List.length (groups (engine p)))%nat;
      [injection H as <-; left; exact Hin|].
    destruct (App.exact now) as [n|]; [|discriminate].
    injection H as <-. cbn in Hin. apply in_app_or in Hin as [Hin|[<-|[]]].
    + left. exact Hin.
    + right. apply Hnew.
  - injection H as <-. cbn in Hin.
    apply replace_first_In in Hin as [Hin | (old & _ & _ & ->)].
    + left. exact Hin.
    + right. apply Hnew.
Qed.

Lemma collect_determined rs :
  Forall (fun r => App.timeToMs (trim (row_duration r)) <> None) rs ->
  collect trim rs <> Undetermined.
Proof.
  induction 1 as [|r rest Hr _ IH]; cbn [collect]; [discriminate|].
  destruct (is_empty (trim (row_name r)) || is_empty (trim (row_duration r)));
    [exact IH|].
  destruct (App.timeToMs (trim (row_duration r))) as [ms|]; [|congruence].
  destruct (ms <=? 0); [discriminate|].
  destruct (collect trim rest); [discriminate|discriminate|congruence].
Qed.

(** X13: On a form each of whose rows has a duration that the model of
    [timeToMs] determines, at a clock reading within the exact range,
    [saveGroupHandler] returns, and whatever it puts in the catalog is a
    group the builder accepts: it carries the trimmed, non-empty name of
    the form and at least one task, and each of its tasks has a non-empty
    name and a duration that [timeToMs] reads as more than 0. *)
Theorem saveGroupHandler_stores_only_accepted_groups f now p :
  Forall (fun r => App.timeToMs (trim (row_duration r)) <> None) (rows f) ->
  Z.abs now <= 2 ^ 53 ->
  exists p',
    saveGroupHandler trim f now p = Some p' /\
    forall g, In g (groups (engine p')) ->
      In g (groups (engine p)) \/
      (Group.name g = trim (name_value f) /\ Group.name g <> EmptyString /\
       Group.tasks g <> [] /\ Forall accepted (Group.tasks g)).
Proof.
  intros Hrows Hnow.
  assert (Hret : exists p', saveGroupHandler trim f now p = Some p').
  { unfold saveGroupHandler.
    destruct (is_empty (trim (name_value f))); [eauto|].
    pose proof (collect_determined _ Hrows) as Hc.
    destruct (collect trim (rows f)) as [ts| |]; [|eauto|congruence].
    destruct ts as [|t ts]; [eauto|].
    destruct (is_empty (id_value f)); cbn [negb]; [|eauto].
    destruct (50 <=? List.length (groups (engine p)))%nat; [eauto|].
    rewrite (exact_in_range now Hnow). eauto. }
  destruct Hret as [p' Hp']. exists p'. split; [exact Hp'|].
  exact (saveGroupHandler_new_groups f now p p' Hp').
Qed.

(** X14: [saveGroupHandler] either refuses with one alert and changes nothing,
    or writes the catalog to storage and shows the dashboard; then the
    stored groups keep their ids and their order, at most one group is
    appended, with the id made from the clock, and only to a catalog of
    fewer than 50. *)
Theorem saveGroupHandler_refuses_or_persists f now p p' :
  saveGroupHandler trim f now p = Some p' ->
  (exists msg, p' = show (alert msg) p) \/
  (savedGroups p' = groups (engine p') /\
   ui p' = ui p ++ [saveData_call; showDashboard_call] /\
   engine p' = set_groups (groups (engine p')) (engine p) /\
   (map Group.id (groups (engine p')) = map Group.id (groups (engine p)) \/
    (List.length (groups (engine p)) < 50)%nat /\
    exists g, groups (engine p') = groups (engine p) ++ [g] /\
              Group.id g = fresh_id now)).
Proof.
  unfold saveGroupHandler. intros H.
  destruct (is_empty (trim (name_value f))); [injection H as <-; left; eexists; reflexivity|].
  destruct (collect trim (rows f)) as [ts| |];
    [|injection H as <-; left; eexists; reflexivity|discriminate].
  destruct ts as [|t ts]; [injection H as <-; left; eexists; reflexivity|].
  destruct (is_empty (id_value f)); cbn [negb] in H.
  - destruct (Nat.leb_spec 50 (List.length (groups (engine p))))
      as [_|Hlt]; [injection H as <-; left; eexists; reflexivity|].
    destruct (App.exact now) as [n|] eqn:En; [|discriminate].
    assert (n = now).
    { unfold App.exact in En.
      destruct (Z.abs now <=? 2 ^ 53); congruence. }
    subst n. injection H as <-. right. cbn.
    rewrite <- app_assoc. repeat split. right. split; [lia|].
    eexists. split; reflexivity.
  - injection H as <-. right. cbn. rewrite <- app_assoc.
    repeat split. left. apply replace_first_ids. reflexivity.
Qed.

(** X15: A group just created can be started from its card, provided no stored
    group already carries the id made from the same clock reading: the
    click begins its first task. *)
Theorem created_group_starts f now startNow p p' g :
  saveGroupHandler trim f now p = Some p' ->
  groups (engine p') = groups (engine p) ++ [g] ->
  (forall h, In h (groups (engine p)) -> Group.id h <> Group.id g) ->
  exists t0 p'',
    handleGroupAction timeToMs (start_btn (Group.id g)) startNow p'
    = Some p'' /\
    nth_error (Group.tasks g) 0 = Some t0 /\
    session (engine p'') = (Obj g, 0, false) /\
    remainingTimeMs (engine p'') = timeToMs (Task.duration t0).
Proof.
  intros H Hg Hfresh.
  assert (Hin : In g (groups (engine p')))
    by (rewrite Hg; apply in_or_app; right; left; reflexivity).
  destruct (saveGroupHandler_new_groups f now p p' H g Hin)
    as [Hold | (_ & _ & Hts & _)].
  { exfalso. exact (Hfresh g Hold eq_refl). }
  destruct (Group.tasks g) as [|t0 l] eqn:Et; [congruence|].
  exists t0. eexists. cbn [handleGroupAction]. split; [reflexivity|].
  split; [reflexivity|].
  assert (Hlook : getGroupById (groups (engine p')) (Group.id g) = Some g).
  { rewrite Hg. apply getGroupById_first; [reflexivity|exact Hfresh]. }
  cbn [engine].
  rewrite (startTimer_starts timeToMs (Group.id g) g t0)
    by (try exact Hlook; rewrite Et; reflexivity).
  split; reflexivity.
Qed.

Lemma startTimer_keeps_groups groupId now w :
  groups (world_of (startTimer timeToMs groupId now w)) = groups w.
Proof.
  destruct (getGroupById (groups w) groupId) as [g|] eqn:Hg.
  - destruct (nth_error (Group.tasks g) 0) as [t0|] eqn:Ht.
    + rewrite (startTimer_starts timeToMs groupId g t0) by assumption.
      reflexivity.
    + assert (Hts : Group.tasks g = [])
        by (destruct (Group.tasks g); [reflexivity|discriminate]).
      rewrite startTimer_refused by eauto. reflexivity.
  - rewrite startTimer_refused by auto. reflexivity.
Qed.

(** X16: The copy button appends a twin of the group it names: same tasks and
    colour, the name prefixed, the id made from the clock; the catalog is
    then written to storage and the cards are drawn again.  It does
    nothing for an id the catalog does not have, or on a catalog of 50. *)
Theorem copy_appends_a_twin groupId now p p' :
  handleGroupAction timeToMs (copy_btn groupId) now p = Some p' ->
  (getGroupById (groups (engine p)) groupId = None \/
   (50 <= List.length (groups (engine p)))%nat -> p' = p) /\
  (forall original,
     getGroupById (groups (engine p)) groupId = Some original ->
     (List.length (groups (engine p)) < 50)%nat ->
     groups (engine p')
     = groups (engine p)
       ++ [Group.mk (fresh_id now) ("Copy of " ++ Group.name original)
             (Group.color original) (Group.tasks original)] /\
     savedGroups p' = groups (engine p') /\
     ui p' = ui p ++ [saveData_call; renderGroupCards_call]).
Proof.
  cbn [handleGroupAction]. intros H.
  destruct (getGroupById (groups (engine p)) groupId) as [o|].
  - destruct (Nat.leb_spec 50 (List.length (groups (engine p))))
      as [Hfull|Hroom].
    + injection H as <-. split; [reflexivity|]. intros; lia.
    + destruct (App.exact now) as [n|] eqn:En; [|discriminate].
      assert (n = now).
      { unfold App.exact in En.
        destruct (Z.abs now <=? 2 ^ 53); congruence. }
      subst n. injection H as <-. split.
      * intros [E|Hfull]; [discriminate|lia].
      * intros original E _. injection E as <-. cbn.
        rewrite <- app_assoc. repeat split.
  - injection H as <-. split; [reflexivity|]. discriminate.
Qed.

(** X17: Neither saving a form nor a click on a group card makes a catalog of
    at most 50 groups any longer than 50. *)
Theorem catalog_stays_within_50 f b now p :
  (List.length (groups (engine p)) <= 50)%nat ->
  (forall p', saveGroupHandler trim f now p = Some p' ->
              (List.length (groups (engine p')) <= 50)%nat) /\
  (forall p', handleGroupAction timeToMs b now p = Some p' ->
              (List.length (groups (engine p')) <= 50)%nat).
Proof.
  intros Hlen. split; intros p' H.
  - unfold saveGroupHandler in H.
    destruct (is_empty (trim (name_value f)));
      [injection H as <-; exact Hlen|].
    destruct (collect trim (rows f)) as [ts| |];
      [|injection H as <-; exact Hlen|discriminate].
    destruct ts as [|t ts]; [injection H as <-; exact Hlen|].
    destruct (is_empty (id_value f)); cbn [negb] in H.
    + destruct (Nat.leb_spec 50 (List.length (groups (engine p))))
        as [_|Hlt]; [injection H as <-; exact Hlen|].
      destruct (App.exact now); [|discriminate].
      injection H as <-. cbn. rewrite length_app. cbn. lia.
    + injection H as <-. cbn.
      rewrite <- (length_map Group.id), replace_first_ids,
        length_map by reflexivity.
      exact Hlen.
  - destruct b as [|gid|gid|gid|gid]; cbn [handleGroupAction] in H;
      try (injection H as <-; exact Hlen).
    + injection H as <-. cbn [engine]. rewrite startTimer_keeps_groups.
      exact Hlen.
    + destruct (getGroupById (groups (engine p)) gid);
        [|injection H as <-; exact Hlen].
      destruct (Nat.leb_spec 50 (List.length (groups (engine p))))
        as [_|Hlt]; [injection H as <-; exact Hlen|].
      destruct (App.exact now); [|discriminate].
      injection H as <-. cbn. rewrite length_app. cbn. lia.
Qed.

End BuilderFacts.

Section BuilderDemo.
Import Storage TimerEngine Builder.
Local Open Scope list_scope.

(** The form for a new group, at the clock reading 1700000000000: both of
    its durations are determined, and the group created is accepted. *)
Lemma saveGroupHandler_stores_only_accepted_groups_witness :
  Forall (fun r => App.timeToMs (plain_trim (row_duration r)) <> None)
    (rows new_form) /\
  Forall accepted (Group.tasks created).
Proof.
  assert (Hrows : Forall (fun r => App.timeToMs (plain_trim (row_duration r))
                                   <> None) (rows new_form))
    by (repeat constructor; vm_compute; discriminate).
  assert (Hnow : Z.abs 1700000000000 <= 2 ^ 53)
    by (vm_compute; discriminate).
  split; [exact Hrows|].
  destruct (saveGroupHandler_stores_only_accepted_groups plain_trim
              new_form 1700000000000 page Hrows Hnow) as (p' & Hp' & Hacc).
  assert (E : p' = page_after)
    by (vm_compute in Hp'; injection Hp' as <-; reflexivity).
  subst p'.
  destruct (Hacc created) as [Hold | (_ & _ & _ & H)].
  - cbn. right. right. left. reflexivity.
  - exfalso. cbn in Hold. destruct Hold as [E|[E|[]]]; discriminate.
  - exact H.
Defined.

Lemma saveGroupHandler_refuses_or_persists_witness :
  savedGroups page_after = groups (engine page_after).
Proof.
  destruct (saveGroupHandler_refuses_or_persists plain_trim new_form
              1700000000000 page page_after eq_refl)
    as [(msg & E) | (Hsaved & _)].
  - exfalso. apply (f_equal savedGroups) in E. discriminate.
  - exact Hsaved.
Defined.

Lemma created_group_starts_witness :
  exists t0 p'',
    handleGroupAction timeToMsZ (start_btn "group-1700000000000")
      1700000005000 page_after = Some p'' /\
    nth_error (Group.tasks created) 0 = Some t0 /\
    session (engine p'') = (Obj created, 0, false) /\
    remainingTimeMs (engine p'') = timeToMsZ (Task.duration t0).
Proof.
  apply (created_group_starts plain_trim timeToMsZ new_form 1700000000000
           1700000005000 page page_after created).
  - reflexivity.
  - reflexivity.
  - intros h [<-|[<-|[]]]; discriminate.
Defined.

(** The demo routine copied on the loaded page. *)
Lemma copy_appends_a_twin_witness :
  savedGroups page_copied = groups (engine page_copied) /\
  ui page_copied = [saveData_call; renderGroupCards_call].
Proof.
  destruct (copy_appends_a_twin timeToMsZ "group-default" 1700000000000
              page page_copied eq_refl) as (_ & Htwin).
  assert (Hroom : (List.length (groups (engine page)) < 50)%nat)
    by (cbn; lia).
  destruct (Htwin demo eq_refl Hroom) as (_ & Hsaved & Hui).
  split; [exact Hsaved | exact Hui].
Defined.

Lemma catalog_stays_within_50_witness :
  (List.length (groups (engine page_after)) <= 50)%nat.
Proof.
  assert (Hlen : (List.length (groups (engine page)) <= 50)%nat)
    by (cbn; lia).
  destruct (catalog_stays_within_50 plain_trim timeToMsZ new_form no_button
              1700000000000 page Hlen) as (Hsave & _).
  exact (Hsave page_after eq_refl).
Defined.

End BuilderDemo.

(* ================================================================== *)
(** ** [stopTimer] after a start that was refused *)
(* ================================================================== *)

Section StopAfterRefusal.
Import Storage TimerEngine.
Local Open Scope list_scope.

Variable timeToMs : string -> Z.

(** C10, where the code departs from it: a [startTimer] on an id the
    catalog does not have leaves [undefined] in [activeGroup]; no group is
    active and, on a page that was not polling, the engine is idle; yet
    [undefined !== null] holds, so the [stopTimer] that follows calls
    [handleRoutineComplete].  A second [stopTimer] finds [null] and reports
    nothing. *)
Theorem stopTimer_reports_after_a_refused_start groupId now finished again w :
  getGroupById (groups w) groupId = None -> intervals w = [] ->
  let w1 := world_of (startTimer timeToMs groupId now w) in
  let w2 := world_of (stopTimer finished w1) in
  Idle w1 /\ activeGroup w1 = Undefined /\
  trace w2
  = trace w1 ++ [clearInterval_call (timerInterval w); releaseWakeLock_call;
                 clearTimerState_call; handleRoutineComplete finished] /\
  trace (world_of (stopTimer again w2))
  = trace w2 ++ [clearInterval_call (timerInterval w); releaseWakeLock_call;
                 clearTimerState_call].
Proof.
  intros Hnone Hquiet. cbv zeta.
  rewrite startTimer_refused by auto. rewrite Hnone.
  cbn [world_of of_lookup]. rewrite !stopTimer_returns.
  cbn [world_of]. unfold Idle, stop_calls.
  cbn [activeGroup falsy intervals trace timerInterval not_null app].
  repeat split; try reflexivity. exact Hquiet.
Qed.

End StopAfterRefusal.

Section StopAfterRefusalDemo.
Import Storage TimerEngine.
Local Open Scope list_scope.

(** On the loaded page, the id group-9 refused and the engine stopped: a
    routine is reported as stopped that never began. *)
Lemma stopTimer_reports_after_a_refused_start_witness :
  Idle (world_of (startTimer timeToMsZ "group-9" 1000 loaded)) /\
  trace (world_of (stopTimer false
                     (world_of (startTimer timeToMsZ "group-9" 1000 loaded))))
  = [console_error "Cannot start an empty group."; clearInterval_call None;
     releaseWakeLock_call; clearTimerState_call; handleRoutineComplete false].
Proof.
  destruct (stopTimer_reports_after_a_refused_start timeToMsZ "group-9" 1000
              false false loaded eq_refl eq_refl) as (Hidle & _ & Htrace & _).
  split; [exact Hidle | exact Htrace].
Defined.

End StopAfterRefusalDemo.
